(** * AI Twin marketplace: a shallow embedding of the Move contracts

    The four Move modules of the package [ai_twin_marketplace]
    ([ai_twin_nft], [marketplace], [access_token], [revenue_distribution])
    are embedded as Rocq functions in a transaction monad.  A Move abort
    rolls the whole transaction back, so an entry function is a function
    from the objects it borrows to either an abort or the new objects,
    together with the effects of the transaction (events, transfers). *)

From stdpp Require Import gmap strings list fin_maps.
From Stdlib Require Import ZArith Ascii Lia.

#[local] Open Scope Z_scope.

(** ** Move and Sui primitives *)

(** [address] and object [ID]s are 32-byte values; an [ID] made by
    [object::new] is derived from the transaction digest and the number of
    objects the transaction has created so far, kept here as that pair. *)
Abbreviation address := Z (only parsing).
Abbreviation ID := (Z * Z)%type (only parsing).

Definition MAX_U64 : Z := 18446744073709551615.

(** The ways a transaction of this package can abort. *)
Inductive abort : Type :=
| Assert (code : Z)       (* [assert!(cond, code)] with a false [cond] *)
| ARITHMETIC_ERROR        (* u64 overflow, underflow, division by zero *)
| EInvalidUTF8            (* [std::string::utf8] on ill-formed bytes *)
| ENotEnough              (* [sui::balance::split] beyond the balance *)
| EFieldAlreadyExists     (* [sui::table::add] on a present key *)
| EFieldDoesNotExist.     (* [sui::table::borrow_mut], [remove] on a missing key *)

Inductive result (A : Type) : Type :=
| Ok (a : A)
| Err (e : abort).
Arguments Ok {A} a.
Arguments Err {A} e.

#[global] Instance abort_eq_dec : EqDecision abort.
Proof. solve_decision. Defined.

(** Checked u64 arithmetic: Move aborts instead of wrapping around. *)
Definition add_u64 (a b : Z) : result Z :=
  if a + b <=? MAX_U64 then Ok (a + b) else Err ARITHMETIC_ERROR.

Definition sub_u64 (a b : Z) : result Z :=
  if b <=? a then Ok (a - b) else Err ARITHMETIC_ERROR.

Definition mul_u64 (a b : Z) : result Z :=
  if a * b <=? MAX_U64 then Ok (a * b) else Err ARITHMETIC_ERROR.

Definition div_u64 (a b : Z) : result Z :=
  if b =? 0 then Err ARITHMETIC_ERROR else Ok (a / b).

(** [std::string::utf8]: a [vector<u8>] is a Rocq [string] (a sequence of
    8-bit characters); the native validity check follows RFC 3629. *)
Definition code (c : ascii) : Z := Z.of_N (N_of_ascii c).

Definition is_cont (c : ascii) : bool := (128 <=? code c) && (code c <=? 191).

Definition in_range (lo hi : Z) (c : ascii) : bool :=
  (lo <=? code c) && (code c <=? hi).

Fixpoint internal_check_utf8 (s : string) : bool :=
  match s with
  | EmptyString => true
  | String c0 r0 =>
    if code c0 <? 128 then internal_check_utf8 r0
    else if in_range 194 223 c0 then
      match r0 with
      | String c1 r1 => is_cont c1 && internal_check_utf8 r1
      | _ => false
      end
    else if in_range 224 239 c0 then
      match r0 with
      | String c1 (String c2 r2) =>
        (if code c0 =? 224 then in_range 160 191 c1
         else if code c0 =? 237 then in_range 128 159 c1
         else is_cont c1)
        && is_cont c2 && internal_check_utf8 r2
      | _ => false
      end
    else if in_range 240 244 c0 then
      match r0 with
      | String c1 (String c2 (String c3 r3)) =>
        (if code c0 =? 240 then in_range 144 191 c1
         else if code c0 =? 244 then in_range 128 143 c1
         else is_cont c1)
        && is_cont c2 && is_cont c3 && internal_check_utf8 r3
      | _ => false
      end
    else false
  end.

Definition utf8 (bytes : string) : result string :=
  if internal_check_utf8 bytes then Ok bytes else Err EInvalidUTF8.

(** [sui::table]: a [Table<K, V>] is a finite map; [add] aborts on a present
    key, [remove] and [borrow_mut] on a missing one. *)
Definition table_add `{Countable K} {V} (t : gmap K V) (k : K) (v : V)
  : result (gmap K V) :=
  match t !! k with
  | Some _ => Err EFieldAlreadyExists
  | None => Ok (<[k := v]> t)
  end.

Definition table_remove `{Countable K} {V} (t : gmap K V) (k : K)
  : result (V * gmap K V) :=
  match t !! k with
  | Some v => Ok (v, delete k t)
  | None => Err EFieldDoesNotExist
  end.

Definition table_borrow `{Countable K} {V} (t : gmap K V) (k : K) : result V :=
  match t !! k with
  | Some v => Ok v
  | None => Err EFieldDoesNotExist
  end.

Definition table_contains `{Countable K} {V} (t : gmap K V) (k : K) : bool :=
  bool_decide (is_Some (t !! k)).

(** [vector::index_of] and [vector::remove] on a [vector<ID>]. *)
Fixpoint index_of (v : list ID) (e : ID) : bool * nat :=
  match v with
  | [] => (false, 0%nat)
  | x :: v' =>
    if bool_decide (x = e) then (true, 0%nat)
    else let '(found, i) := index_of v' e in
         if found then (true, S i) else (false, 0%nat)
  end.

Definition vector_remove (v : list ID) (i : nat) : result (ID * list ID) :=
  match v !! i with
  | Some x => Ok (x, delete i v)
  | None => Err (Assert 131072)   (* EINDEX_OUT_OF_BOUNDS *)
  end.

(** [sui::clock::Clock] and [sui::coin::Coin<SUI>]. *)
Record Clock : Type := { timestamp_ms : Z }.

Record Coin : Type := { coin_id : ID; coin_value : Z }.

(** ** The transaction monad *)

Record TxContext : Type := {
  sender : address;
  tx_hash : Z;
  epoch : Z;
  ids_created : Z;
}.

(** The state a transaction threads: its context and the effects it has
    produced so far, oldest first.  [E] is the module's type of effects. *)
Record TxState (E : Type) : Type := {
  tx_ctx : TxContext;
  tx_effects : list E;
}.
Arguments tx_ctx {E} _.
Arguments tx_effects {E} _.
Arguments Build_TxState {E} _ _.

Definition Tx (E A : Type) : Type := TxState E → result (A * TxState E).

#[global] Instance Tx_ret {E} : MRet (Tx E) := λ A a s, Ok (a, s).

#[global] Instance Tx_bind {E} : MBind (Tx E) := λ A B f m s,
  match m s with
  | Ok (a, s') => f a s'
  | Err e => Err e
  end.

Definition tx_sender {E} : Tx E address := λ s, Ok (sender (tx_ctx s), s).

Definition tx_epoch {E} : Tx E Z := λ s, Ok (epoch (tx_ctx s), s).

(** [object::new]: a fresh identifier, the creation counter goes up. *)
Definition object_new {E} : Tx E ID := λ s,
  let c := tx_ctx s in
  Ok ((tx_hash c, ids_created c),
      Build_TxState
        {| sender := sender c; tx_hash := tx_hash c; epoch := epoch c;
           ids_created := ids_created c + 1 |}
        (tx_effects s)).

Definition effect {E} (e : E) : Tx E unit := λ s,
  Ok (tt, Build_TxState (tx_ctx s) (tx_effects s ++ [e])).

Definition abort_with {E A} (e : abort) : Tx E A := λ _, Err e.

Definition assert {E} (cond : bool) (code : Z) : Tx E unit :=
  if cond then mret tt else abort_with (Assert code).

Definition lift {E A} (r : result A) : Tx E A := λ s,
  match r with
  | Ok a => Ok (a, s)
  | Err e => Err e
  end.

(** [coin::split]: takes [amount] out of [self] into a new coin. *)
Definition coin_split {E} (self : Coin) (amount : Z) : Tx E (Coin * Coin) :=
  if coin_value self <? amount then abort_with ENotEnough
  else
    id ← object_new;
    mret ({| coin_id := coin_id self; coin_value := coin_value self - amount |},
          {| coin_id := id; coin_value := amount |}).

(** A transaction that aborts leaves every object as it was. *)
Definition commit {S A} (before : S) (project : A → S) (r : result A) : S :=
  match r with
  | Ok a => project a
  | Err _ => before
  end.

(** ** Module [ai_twin_marketplace::ai_twin_nft] *)
Module ai_twin_nft.

Definition ERROR_TWIN_ALREADY_EXISTS : Z := 1.
Definition ERROR_TWIN_NOT_FOUND : Z := 2.

Record AITwinNFT : Type := {
  id : ID;
  twin_id : string;
  creator : address;
  name : string;
  description : string;
  training_data_blob_id : string;
  created_at : Z;
  metadata : string;
}.

Record AITwinRegistry : Type := {
  registry_id : ID;
  total_minted : Z;
  twins : gmap string address;   (* twin_id -> current_owner *)
}.

Inductive Effect : Type :=
| AITwinMinted (twin_id : string) (nft_id : ID) (creator : address)
    (name : string) (timestamp : Z)
| AITwinTransferred (twin_id : string) (nft_id : ID) (from to : address)
    (timestamp : Z)
| AITwinBurned (twin_id : string) (nft_id : ID) (owner : address)
    (timestamp : Z)
| share_object (registry : AITwinRegistry)
| public_transfer (nft : AITwinNFT) (recipient : address)
| object_delete (id : ID).

Definition set_twins (t : gmap string address) (r : AITwinRegistry)
  : AITwinRegistry :=
  {| registry_id := registry_id r; total_minted := total_minted r;
     twins := t |}.

Definition init : Tx Effect unit :=
  id ← object_new;
  let registry :=
    {| registry_id := id; total_minted := 0; twins := ∅ |} in
  effect (share_object registry).

Definition mint_ai_twin (registry : AITwinRegistry)
    (twin_id name description training_data_blob_id metadata : string)
  : Tx Effect AITwinRegistry :=
  twin_id_string ← lift (utf8 twin_id);
  creator ← tx_sender;
  assert (negb (table_contains (twins registry) twin_id_string))
    ERROR_TWIN_ALREADY_EXISTS;;
  id ← object_new;
  name_string ← lift (utf8 name);
  description_string ← lift (utf8 description);
  blob_string ← lift (utf8 training_data_blob_id);
  created_at ← tx_epoch;
  let nft :=
    {| id := id; twin_id := twin_id_string; creator := creator;
       name := name_string; description := description_string;
       training_data_blob_id := blob_string; created_at := created_at;
       metadata := metadata |} in
  let nft_id := id in
  twins' ← lift (table_add (twins registry) twin_id_string creator);
  total_minted' ← lift (add_u64 (total_minted registry) 1);
  let registry :=
    {| registry_id := registry_id registry; total_minted := total_minted';
       twins := twins' |} in
  event_name ← lift (utf8 name);
  timestamp ← tx_epoch;
  effect (AITwinMinted twin_id_string nft_id creator event_name timestamp);;
  effect (public_transfer nft creator);;
  mret registry.

Definition transfer_twin (registry : AITwinRegistry) (nft : AITwinNFT)
    (recipient : address) : Tx Effect AITwinRegistry :=
  sender ← tx_sender;
  let twin_id := twin_id nft in
  let nft_id := id nft in
  twins1 ←
    (if table_contains (twins registry) twin_id
     then '(_, twins') ← lift (table_remove (twins registry) twin_id); mret twins'
     else mret (twins registry));
  twins2 ← lift (table_add twins1 twin_id recipient);
  let registry := set_twins twins2 registry in
  timestamp ← tx_epoch;
  effect (AITwinTransferred twin_id nft_id sender recipient timestamp);;
  effect (public_transfer nft recipient);;
  mret registry.

Definition burn_twin (registry : AITwinRegistry) (nft : AITwinNFT)
  : Tx Effect AITwinRegistry :=
  owner ← tx_sender;
  let twin_id := twin_id nft in
  let nft_id := id nft in
  twins1 ←
    (if table_contains (twins registry) twin_id
     then '(_, twins') ← lift (table_remove (twins registry) twin_id); mret twins'
     else mret (twins registry));
  let registry := set_twins twins1 registry in
  timestamp ← tx_epoch;
  effect (AITwinBurned twin_id nft_id owner timestamp);;
  effect (object_delete (id nft));;
  mret registry.

Definition get_twin_owner (registry : AITwinRegistry) (twin_id : string)
  : result address :=
  if table_contains (twins registry) twin_id
  then table_borrow (twins registry) twin_id
  else Err (Assert ERROR_TWIN_NOT_FOUND).

Definition twin_exists (registry : AITwinRegistry) (twin_id : string) : bool :=
  table_contains (twins registry) twin_id.

Definition get_total_minted (registry : AITwinRegistry) : Z :=
  total_minted registry.

Definition get_twin_id (nft : AITwinNFT) : string := twin_id nft.

End ai_twin_nft.

(** ** Module [ai_twin_marketplace::marketplace] *)
Module marketplace.

Definition PLATFORM_FEE_PERCENT : Z := 5.
Definition ACCESS_TYPE_FULL : Z := 1.
Definition ACCESS_TYPE_LIMITED : Z := 2.
Definition ACCESS_TYPE_TEMPORARY : Z := 3.

Definition ERROR_INSUFFICIENT_PAYMENT : Z := 1.
Definition ERROR_LISTING_INACTIVE : Z := 2.
Definition ERROR_INVALID_ACCESS_TYPE : Z := 3.
Definition ERROR_NOT_SELLER : Z := 4.

Record Listing : Type := {
  id : ID;
  twin_id : string;
  nft_id : ID;
  seller : address;
  price : Z;
  access_type : Z;
  access_duration_days : Z;
  terms : string;
  is_active : bool;
  created_at : Z;
}.

Record MarketplaceRegistry : Type := {
  registry_id : ID;
  platform_fee_percent : Z;
  platform_fee_recipient : address;
  total_listings : Z;
  total_sales : Z;
  total_volume : Z;
  listings : gmap ID bool;   (* listing_id -> is_active *)
}.

Inductive Effect : Type :=
| ListingCreated (listing_id : ID) (twin_id : string) (seller : address)
    (price access_type timestamp : Z)
| ListingUpdated (listing_id : ID) (new_price : Z) (new_terms : string)
    (timestamp : Z)
| ListingDelisted (listing_id : ID) (twin_id : string) (seller : address)
    (timestamp : Z)
| PurchaseCompleted (listing_id : ID) (twin_id : string)
    (buyer seller : address) (price platform_fee seller_amount timestamp : Z)
| share_registry (registry : MarketplaceRegistry)
| share_listing (listing : Listing)
| transfer_nft (nft : ai_twin_nft.AITwinNFT) (recipient : address)
| transfer_coin (coin : Coin) (recipient : address)
| destroy_zero (coin : Coin).

(** Field assignments [listing.f = v] and [registry.f = v]. *)
Definition set_is_active (b : bool) (l : Listing) : Listing :=
  {| id := id l; twin_id := twin_id l; nft_id := nft_id l; seller := seller l;
     price := price l; access_type := access_type l;
     access_duration_days := access_duration_days l; terms := terms l;
     is_active := b; created_at := created_at l |}.

Definition set_price (p : Z) (l : Listing) : Listing :=
  {| id := id l; twin_id := twin_id l; nft_id := nft_id l; seller := seller l;
     price := p; access_type := access_type l;
     access_duration_days := access_duration_days l; terms := terms l;
     is_active := is_active l; created_at := created_at l |}.

Definition set_terms (t : string) (l : Listing) : Listing :=
  {| id := id l; twin_id := twin_id l; nft_id := nft_id l; seller := seller l;
     price := price l; access_type := access_type l;
     access_duration_days := access_duration_days l; terms := t;
     is_active := is_active l; created_at := created_at l |}.

Definition set_listings (t : gmap ID bool) (r : MarketplaceRegistry)
  : MarketplaceRegistry :=
  {| registry_id := registry_id r;
     platform_fee_percent := platform_fee_percent r;
     platform_fee_recipient := platform_fee_recipient r;
     total_listings := total_listings r; total_sales := total_sales r;
     total_volume := total_volume r; listings := t |}.

Definition set_total_listings (n : Z) (r : MarketplaceRegistry)
  : MarketplaceRegistry :=
  {| registry_id := registry_id r;
     platform_fee_percent := platform_fee_percent r;
     platform_fee_recipient := platform_fee_recipient r;
     total_listings := n; total_sales := total_sales r;
     total_volume := total_volume r; listings := listings r |}.

Definition set_total_sales (n : Z) (r : MarketplaceRegistry)
  : MarketplaceRegistry :=
  {| registry_id := registry_id r;
     platform_fee_percent := platform_fee_percent r;
     platform_fee_recipient := platform_fee_recipient r;
     total_listings := total_listings r; total_sales := n;
     total_volume := total_volume r; listings := listings r |}.

Definition set_total_volume (n : Z) (r : MarketplaceRegistry)
  : MarketplaceRegistry :=
  {| registry_id := registry_id r;
     platform_fee_percent := platform_fee_percent r;
     platform_fee_recipient := platform_fee_recipient r;
     total_listings := total_listings r; total_sales := total_sales r;
     total_volume := n; listings := listings r |}.

Definition init : Tx Effect unit :=
  id ← object_new;
  recipient ← tx_sender;
  let registry :=
    {| registry_id := id; platform_fee_percent := PLATFORM_FEE_PERCENT;
       platform_fee_recipient := recipient; total_listings := 0;
       total_sales := 0; total_volume := 0; listings := ∅ |} in
  effect (share_registry registry).

Definition list_ai_twin (registry : MarketplaceRegistry)
    (nft : ai_twin_nft.AITwinNFT) (price access_type access_duration_days : Z)
    (terms : string) : Tx Effect MarketplaceRegistry :=
  seller ← tx_sender;
  assert ((access_type =? ACCESS_TYPE_FULL)
          || (access_type =? ACCESS_TYPE_LIMITED)
          || (access_type =? ACCESS_TYPE_TEMPORARY))
    ERROR_INVALID_ACCESS_TYPE;;
  let nft_id := ai_twin_nft.id nft in
  let twin_id := ai_twin_nft.get_twin_id nft in
  id ← object_new;
  terms_string ← lift (utf8 terms);
  created_at ← tx_epoch;
  let listing :=
    {| id := id; twin_id := twin_id; nft_id := nft_id; seller := seller;
       price := price; access_type := access_type;
       access_duration_days := access_duration_days; terms := terms_string;
       is_active := true; created_at := created_at |} in
  let listing_id := id in
  listings' ← lift (table_add (listings registry) listing_id true);
  let registry := set_listings listings' registry in
  total_listings' ← lift (add_u64 (total_listings registry) 1);
  let registry := set_total_listings total_listings' registry in
  timestamp ← tx_epoch;
  effect (ListingCreated listing_id twin_id seller price access_type timestamp);;
  effect (share_listing listing);;
  mret registry.

Definition update_listing (listing : Listing) (new_price : Z)
    (new_terms : string) : Tx Effect Listing :=
  sender ← tx_sender;
  assert (sender =? seller listing) ERROR_NOT_SELLER;;
  assert (is_active listing) ERROR_LISTING_INACTIVE;;
  let listing := set_price new_price listing in
  terms_string ← lift (utf8 new_terms);
  let listing := set_terms terms_string listing in
  event_terms ← lift (utf8 new_terms);
  timestamp ← tx_epoch;
  effect (ListingUpdated (id listing) new_price event_terms timestamp);;
  mret listing.

Definition delist_ai_twin (registry : MarketplaceRegistry) (listing : Listing)
  : Tx Effect (MarketplaceRegistry * Listing) :=
  sender ← tx_sender;
  assert (sender =? seller listing) ERROR_NOT_SELLER;;
  assert (is_active listing) ERROR_LISTING_INACTIVE;;
  let listing := set_is_active false listing in
  let listing_id := id listing in
  listings' ←
    (if table_contains (listings registry) listing_id
     then '(_, t) ← lift (table_remove (listings registry) listing_id); mret t
     else mret (listings registry));
  let registry := set_listings listings' registry in
  timestamp ← tx_epoch;
  effect (ListingDelisted listing_id (twin_id listing) (seller listing)
            timestamp);;
  mret (registry, listing).

Definition purchase_access (registry : MarketplaceRegistry) (listing : Listing)
    (nft : ai_twin_nft.AITwinNFT) (payment : Coin)
  : Tx Effect (MarketplaceRegistry * Listing
               * (ai_twin_nft.AITwinNFT * Coin * Coin * Coin)) :=
  buyer ← tx_sender;
  assert (is_active listing) ERROR_LISTING_INACTIVE;;
  let payment_amount := coin_value payment in
  assert (price listing <=? payment_amount) ERROR_INSUFFICIENT_PAYMENT;;
  product ← lift (mul_u64 (price listing) (platform_fee_percent registry));
  platform_fee ← lift (div_u64 product 100);
  seller_amount ← lift (sub_u64 (price listing) platform_fee);
  '(payment, platform_fee_coin) ← coin_split payment platform_fee;
  '(payment, seller_payment) ← coin_split payment seller_amount;
  let listing := set_is_active false listing in
  total_sales' ← lift (add_u64 (total_sales registry) 1);
  let registry := set_total_sales total_sales' registry in
  total_volume' ← lift (add_u64 (total_volume registry) (price listing));
  let registry := set_total_volume total_volume' registry in
  timestamp ← tx_epoch;
  effect (PurchaseCompleted (id listing) (twin_id listing) buyer
            (seller listing) (price listing) platform_fee seller_amount
            timestamp);;
  mret (registry, listing, (nft, platform_fee_coin, seller_payment, payment)).

Definition complete_purchase (registry : MarketplaceRegistry)
    (listing : Listing) (nft : ai_twin_nft.AITwinNFT) (payment : Coin)
  : Tx Effect (MarketplaceRegistry * Listing) :=
  buyer ← tx_sender;
  '(registry, listing, (nft_for_buyer, platform_fee, seller_payment, change)) ←
    purchase_access registry listing nft payment;
  effect (transfer_nft nft_for_buyer buyer);;
  effect (transfer_coin platform_fee (platform_fee_recipient registry));;
  effect (transfer_coin seller_payment (seller listing));;
  (if 0 <? coin_value change
   then effect (transfer_coin change buyer)
   else effect (destroy_zero change));;
  mret (registry, listing).

Definition get_listing_price (listing : Listing) : Z := price listing.

Definition is_listing_active (listing : Listing) : bool := is_active listing.

Definition get_seller (listing : Listing) : address := seller listing.

Definition get_twin_id (listing : Listing) : string := twin_id listing.

End marketplace.

(** ** Module [ai_twin_marketplace::access_token] *)
Module access_token.

Definition SECONDS_PER_DAY : Z := 86400.

Definition ERROR_NOT_AUTHORIZED : Z := 5.

Record AccessToken : Type := {
  id : ID;
  twin_id : string;
  owner : address;
  access_type : Z;
  granted_at : Z;
  expires_at : Z;
  encrypted_key : string;
  purchase_listing_id : ID;
  is_active : bool;
  original_seller : address;
}.

Record AccessRegistry : Type := {
  registry_id : ID;
  total_granted : Z;
  active_accesses : gmap address (list ID);   (* owner -> token_ids *)
}.

Record AdminCap : Type := { cap_id : ID }.

Inductive Effect : Type :=
| AccessGranted (token_id : ID) (twin_id : string) (owner : address)
    (access_type expires_at timestamp : Z)
| AccessRevoked (token_id : ID) (twin_id : string) (owner : address)
    (reason : string) (timestamp : Z)
| AccessTransferred (token_id : ID) (twin_id : string) (from to : address)
    (timestamp : Z)
| share_object (registry : AccessRegistry)
| transfer_cap (cap : AdminCap) (recipient : address)
| public_transfer (token : AccessToken) (recipient : address).

Definition set_is_active (b : bool) (t : AccessToken) : AccessToken :=
  {| id := id t; twin_id := twin_id t; owner := owner t;
     access_type := access_type t; granted_at := granted_at t;
     expires_at := expires_at t; encrypted_key := encrypted_key t;
     purchase_listing_id := purchase_listing_id t; is_active := b;
     original_seller := original_seller t |}.

Definition set_active_accesses (t : gmap address (list ID))
    (r : AccessRegistry) : AccessRegistry :=
  {| registry_id := registry_id r; total_granted := total_granted r;
     active_accesses := t |}.

Definition set_total_granted (n : Z) (r : AccessRegistry) : AccessRegistry :=
  {| registry_id := registry_id r; total_granted := n;
     active_accesses := active_accesses r |}.

Definition init : Tx Effect unit :=
  id ← object_new;
  let registry :=
    {| registry_id := id; total_granted := 0; active_accesses := ∅ |} in
  effect (share_object registry);;
  cap_id ← object_new;
  let admin_cap := {| cap_id := cap_id |} in
  recipient ← tx_sender;
  effect (transfer_cap admin_cap recipient).

(** [vector::push_back] on the vector borrowed from the table under [k]. *)
Definition push_back_at (t : gmap address (list ID)) (k : address) (e : ID)
  : result (gmap address (list ID)) :=
  match table_borrow t k with
  | Ok v => Ok (<[k := v ++ [e]]> t)
  | Err a => Err a
  end.

Definition mint_access_token (registry : AccessRegistry) (twin_id : string)
    (owner : address) (access_type duration_days : Z) (encrypted_key : string)
    (listing_id : ID) (original_seller : address) (clock : Clock)
  : Tx Effect (AccessRegistry * AccessToken) :=
  current_time ← lift (div_u64 (timestamp_ms clock) 1000);
  seconds ← lift (mul_u64 duration_days SECONDS_PER_DAY);
  expires_at ← lift (add_u64 current_time seconds);
  twin_id_string ← lift (utf8 twin_id);
  id ← object_new;
  let token :=
    {| id := id; twin_id := twin_id_string; owner := owner;
       access_type := access_type; granted_at := current_time;
       expires_at := expires_at; encrypted_key := encrypted_key;
       purchase_listing_id := listing_id; is_active := true;
       original_seller := original_seller |} in
  let token_id := id in
  accesses ←
    (if negb (table_contains (active_accesses registry) owner)
     then lift (table_add (active_accesses registry) owner [])
     else mret (active_accesses registry));
  accesses ← lift (push_back_at accesses owner token_id);
  let registry := set_active_accesses accesses registry in
  total_granted' ← lift (add_u64 (total_granted registry) 1);
  let registry := set_total_granted total_granted' registry in
  effect (AccessGranted token_id twin_id_string owner access_type expires_at
            current_time);;
  mret (registry, token).

Definition mint_and_transfer_access (registry : AccessRegistry)
    (twin_id : string) (owner : address) (access_type duration_days : Z)
    (encrypted_key : string) (listing_id : ID) (original_seller : address)
    (clock : Clock) : Tx Effect AccessRegistry :=
  '(registry, token) ←
    mint_access_token registry twin_id owner access_type duration_days
      encrypted_key listing_id original_seller clock;
  effect (public_transfer token owner);;
  mret registry.

Definition revoke_access (_admin : AdminCap) (token : AccessToken)
    (reason : string) : Tx Effect AccessToken :=
  sender ← tx_sender;
  assert (sender =? original_seller token) ERROR_NOT_AUTHORIZED;;
  let token := set_is_active false token in
  reason_string ← lift (utf8 reason);
  timestamp ← tx_epoch;
  effect (AccessRevoked (id token) (twin_id token) (owner token)
            reason_string timestamp);;
  mret token.

Definition check_access (token : AccessToken) (clock : Clock) : bool :=
  if negb (is_active token) then false
  else
    let current_time := timestamp_ms clock / 1000 in
    current_time <? expires_at token.

Definition transfer_access (registry : AccessRegistry) (token : AccessToken)
    (recipient : address) : Tx Effect AccessRegistry :=
  sender ← tx_sender;
  let token_id := id token in
  let twin_id := twin_id token in
  accesses ←
    (if table_contains (active_accesses registry) sender
     then
       sender_tokens ← lift (table_borrow (active_accesses registry) sender);
       let '(exists_, index) := index_of sender_tokens token_id in
       if exists_
       then
         '(_, sender_tokens) ← lift (vector_remove sender_tokens index);
         mret (<[sender := sender_tokens]> (active_accesses registry))
       else mret (active_accesses registry)
     else mret (active_accesses registry));
  accesses ←
    (if negb (table_contains accesses recipient)
     then lift (table_add accesses recipient [])
     else mret accesses);
  accesses ← lift (push_back_at accesses recipient token_id);
  let registry := set_active_accesses accesses registry in
  timestamp ← tx_epoch;
  effect (AccessTransferred token_id twin_id sender recipient timestamp);;
  effect (public_transfer token recipient);;
  mret registry.

Definition get_encrypted_key (token : AccessToken) : string :=
  encrypted_key token.

Definition get_twin_id (token : AccessToken) : string := twin_id token.

Definition get_expires_at (token : AccessToken) : Z := expires_at token.

Definition get_access_type (token : AccessToken) : Z := access_type token.

End access_token.

(** ** Module [ai_twin_marketplace::revenue_distribution] *)
Module revenue_distribution.

Definition ERROR_INSUFFICIENT_BALANCE : Z := 0.
Definition ERROR_NO_EARNINGS : Z := 1.

(** A [Balance<SUI>] is its u64 value. *)
Record RevenuePool : Type := {
  pool_id : ID;
  balances : gmap address Z;   (* user -> balance *)
  total_platform_fees : Z;
  platform_fee_recipient : address;
}.

Inductive Effect : Type :=
| SaleRecorded (seller : address) (amount platform_fee timestamp : Z)
| EarningsWithdrawn (user : address) (amount timestamp : Z)
| PlatformFeesWithdrawn (recipient : address) (amount timestamp : Z)
| share_object (pool : RevenuePool)
| public_transfer (coin : Coin) (recipient : address).

Definition set_balances (t : gmap address Z) (p : RevenuePool) : RevenuePool :=
  {| pool_id := pool_id p; balances := t;
     total_platform_fees := total_platform_fees p;
     platform_fee_recipient := platform_fee_recipient p |}.

Definition set_total_platform_fees (n : Z) (p : RevenuePool) : RevenuePool :=
  {| pool_id := pool_id p; balances := balances p; total_platform_fees := n;
     platform_fee_recipient := platform_fee_recipient p |}.

(** [balance::join] adds with the u64 overflow check; [balance::split]
    aborts when the balance is smaller than the amount taken. *)
Definition balance_join (self value : Z) : result Z := add_u64 self value.

Definition balance_split (self value : Z) : result (Z * Z) :=
  if self <? value then Err ENotEnough else Ok (self - value, value).

Definition init : Tx Effect unit :=
  id ← object_new;
  recipient ← tx_sender;
  let pool :=
    {| pool_id := id; balances := ∅; total_platform_fees := 0;
       platform_fee_recipient := recipient |} in
  effect (share_object pool).

Definition record_sale (pool : RevenuePool) (seller : address)
    (seller_payment platform_fee : Coin) : Tx Effect RevenuePool :=
  let seller_amount := coin_value seller_payment in
  let fee_amount := coin_value platform_fee in
  balances1 ←
    (if negb (table_contains (balances pool) seller)
     then lift (table_add (balances pool) seller 0)
     else mret (balances pool));
  seller_balance ← lift (table_borrow balances1 seller);
  seller_balance ← lift (balance_join seller_balance seller_amount);
  let pool := set_balances (<[seller := seller_balance]> balances1) pool in
  fees ← lift (balance_join (total_platform_fees pool) fee_amount);
  let pool := set_total_platform_fees fees pool in
  timestamp ← tx_epoch;
  effect (SaleRecorded seller seller_amount fee_amount timestamp);;
  mret pool.

Definition withdraw_earnings (pool : RevenuePool) : Tx Effect RevenuePool :=
  user ← tx_sender;
  assert (table_contains (balances pool) user) ERROR_NO_EARNINGS;;
  user_balance ← lift (table_borrow (balances pool) user);
  let balance_value := user_balance in
  assert (0 <? balance_value) ERROR_INSUFFICIENT_BALANCE;;
  '(user_balance, withdrawn_balance) ←
    lift (balance_split user_balance balance_value);
  let pool := set_balances (<[user := user_balance]> (balances pool)) pool in
  id ← object_new;
  let withdrawn_coin := {| coin_id := id; coin_value := withdrawn_balance |} in
  timestamp ← tx_epoch;
  effect (EarningsWithdrawn user balance_value timestamp);;
  effect (public_transfer withdrawn_coin user);;
  mret pool.

Definition withdraw_platform_fees (pool : RevenuePool) (amount : Z)
  : Tx Effect RevenuePool :=
  sender ← tx_sender;
  assert (sender =? platform_fee_recipient pool) ERROR_NO_EARNINGS;;
  let total_fees := total_platform_fees pool in
  assert (amount <=? total_fees) ERROR_INSUFFICIENT_BALANCE;;
  '(rest, withdrawn_balance) ←
    lift (balance_split (total_platform_fees pool) amount);
  let pool := set_total_platform_fees rest pool in
  id ← object_new;
  let withdrawn_coin := {| coin_id := id; coin_value := withdrawn_balance |} in
  timestamp ← tx_epoch;
  effect (PlatformFeesWithdrawn sender amount timestamp);;
  effect (public_transfer withdrawn_coin sender);;
  mret pool.

Definition get_balance (pool : RevenuePool) (user : address) : Z :=
  if negb (table_contains (balances pool) user) then 0
  else match balances pool !! user with
       | Some user_balance => user_balance
       | None => 0
       end.

Definition get_platform_fees (pool : RevenuePool) : Z :=
  total_platform_fees pool.

Definition get_platform_recipient (pool : RevenuePool) : address :=
  platform_fee_recipient pool.

End revenue_distribution.

(** ** Transactions

    Every call of an entry function is a transaction of its own: it starts
    from the context the runtime builds for it, with no effects yet, and its
    changes to the shared objects are kept only when it does not abort. *)
Definition begin_tx {E} (ctx : TxContext) : TxState E :=
  {| tx_ctx := ctx; tx_effects := [] |}.

Module listing_tx.
Import marketplace.

(** The calls that borrow the shared registry or one shared [Listing]. *)
Inductive call : Type :=
| ListTwin (ctx : TxContext) (nft : ai_twin_nft.AITwinNFT)
    (price access_type access_duration_days : Z) (terms : string)
| Update (ctx : TxContext) (new_price : Z) (new_terms : string)
| Delist (ctx : TxContext)
| Purchase (ctx : TxContext) (nft : ai_twin_nft.AITwinNFT) (payment : Coin)
| Complete (ctx : TxContext) (nft : ai_twin_nft.AITwinNFT) (payment : Coin).

Definition run_call (c : call) (st : MarketplaceRegistry * Listing)
  : result (MarketplaceRegistry * Listing) :=
  let '(registry, listing) := st in
  match c with
  | ListTwin ctx nft price access_type days terms =>
    match list_ai_twin registry nft price access_type days terms
            (begin_tx ctx) with
    | Ok (registry', _) => Ok (registry', listing)
    | Err e => Err e
    end
  | Update ctx new_price new_terms =>
    match update_listing listing new_price new_terms (begin_tx ctx) with
    | Ok (listing', _) => Ok (registry, listing')
    | Err e => Err e
    end
  | Delist ctx =>
    match delist_ai_twin registry listing (begin_tx ctx) with
    | Ok (st', _) => Ok st'
    | Err e => Err e
    end
  | Purchase ctx nft payment =>
    match purchase_access registry listing nft payment (begin_tx ctx) with
    | Ok (registry', listing', _, _) => Ok (registry', listing')
    | Err e => Err e
    end
  | Complete ctx nft payment =>
    match complete_purchase registry listing nft payment (begin_tx ctx) with
    | Ok (st', _) => Ok st'
    | Err e => Err e
    end
  end.

(** The objects after the call: an abort changes nothing. *)
Definition step (st : MarketplaceRegistry * Listing) (c : call)
  : MarketplaceRegistry * Listing :=
  commit st (λ st', st') (run_call c st).

Definition run (cs : list call) (st : MarketplaceRegistry * Listing)
  : MarketplaceRegistry * Listing :=
  foldl step st cs.

(** The calls that settle or cancel the listing. *)
Definition settles (c : call) : bool :=
  match c with
  | Delist _ | Purchase _ _ _ | Complete _ _ _ => true
  | _ => false
  end.

(** The abort code a settling call gets on a listing that is not active:
    [delist_ai_twin] checks the sender before the flag. *)
Definition inactive_code (c : call) (listing : Listing) : Z :=
  match c with
  | Delist ctx =>
    if sender ctx =? seller listing then ERROR_LISTING_INACTIVE
    else ERROR_NOT_SELLER
  | _ => ERROR_LISTING_INACTIVE
  end.

End listing_tx.

Module token_tx.
Import access_token.

(** The calls that take an [AccessToken]: [revoke_access] borrows it,
    [transfer_access] takes it by value and hands it on as it is. *)
Inductive call : Type :=
| Revoke (ctx : TxContext) (admin : AdminCap) (reason : string)
| Transfer (ctx : TxContext) (recipient : address).

Definition run_call (c : call) (st : AccessRegistry * AccessToken)
  : result (AccessRegistry * AccessToken) :=
  let '(registry, token) := st in
  match c with
  | Revoke ctx admin reason =>
    match revoke_access admin token reason (begin_tx ctx) with
    | Ok (token', _) => Ok (registry, token')
    | Err e => Err e
    end
  | Transfer ctx recipient =>
    match transfer_access registry token recipient (begin_tx ctx) with
    | Ok (registry', _) => Ok (registry', token)
    | Err e => Err e
    end
  end.

Definition step (st : AccessRegistry * AccessToken) (c : call)
  : AccessRegistry * AccessToken :=
  commit st (λ st', st') (run_call c st).

Definition run (cs : list call) (st : AccessRegistry * AccessToken)
  : AccessRegistry * AccessToken :=
  foldl step st cs.

Definition succeeds (c : call) (st : AccessRegistry * AccessToken) : bool :=
  match run_call c st with
  | Ok _ => true
  | Err _ => false
  end.

(** Some [revoke_access] among the calls [cs], made in this order from
    [st], went through. *)
Fixpoint revoked (cs : list call) (st : AccessRegistry * AccessToken) : bool :=
  match cs with
  | [] => false
  | c :: cs' =>
    (match c with
     | Revoke _ _ _ => succeeds c st
     | Transfer _ _ => false
     end) || revoked cs' (step st c)
  end.

(** Where a token id was indexed under [k] before a transfer, and where
    after it: nowhere new, and without its first occurrence. *)
Definition unindexed (e : ID) (before after : option (list ID)) : Prop :=
  match before with
  | None => after = None
  | Some l =>
    ∃ l', after = Some l' ∧
      (((e ∉ l) ∧ l' = l) ∨
       (∃ i, l !! i = Some e ∧ (∀ j, (j < i)%nat → l !! j ≠ Some e) ∧
             l' = delete i l))
  end.

(** The clock of [access_token] counts seconds. *)
Definition seconds (clock : Clock) : Z := timestamp_ms clock / 1000.

End token_tx.

(** ** Example objects *)
Module scenario.
Import marketplace listing_tx.

(** Concrete objects for the examples on the listing ledger. *)
Definition twin_nft : ai_twin_nft.AITwinNFT :=
  {| ai_twin_nft.id := (1, 0); ai_twin_nft.twin_id := "twin-1";
     ai_twin_nft.creator := 101; ai_twin_nft.name := "Ada";
     ai_twin_nft.description := "a twin";
     ai_twin_nft.training_data_blob_id := "blob-1";
     ai_twin_nft.created_at := 0; ai_twin_nft.metadata := "" |}.

Definition published : MarketplaceRegistry :=
  {| registry_id := (0, 0); platform_fee_percent := PLATFORM_FEE_PERCENT;
     platform_fee_recipient := 100; total_listings := 0; total_sales := 0;
     total_volume := 0; listings := ∅ |}.

Definition seller_ctx : TxContext :=
  {| sender := 101; tx_hash := 2; epoch := 1; ids_created := 0 |}.

Definition buyer_ctx : TxContext :=
  {| sender := 102; tx_hash := 3; epoch := 1; ids_created := 0 |}.

Definition offer : Listing :=
  {| id := (2, 0); twin_id := "twin-1"; nft_id := (1, 0); seller := 101;
     price := 100; access_type := ACCESS_TYPE_FULL; access_duration_days := 0;
     terms := "personal use"; is_active := true; created_at := 1 |}.

Definition listed : MarketplaceRegistry :=
  {| registry_id := (0, 0); platform_fee_percent := PLATFORM_FEE_PERCENT;
     platform_fee_recipient := 100; total_listings := 1; total_sales := 0;
     total_volume := 0; listings := {[ (2, 0) := true ]} |}.

Definition coin (v : Z) : Coin := {| coin_id := (9, 0); coin_value := v |}.


End scenario.

Module token_scenario.
Import access_token token_tx.

Definition published : AccessRegistry :=
  {| registry_id := (0, 0); total_granted := 0; active_accesses := ∅ |}.

Definition admin : AdminCap := {| cap_id := (0, 1) |}.

(** 1000 seconds after the epoch, then 29, 30 and 31 days later. *)
Definition at_seconds (t : Z) : Clock := {| timestamp_ms := t * 1000 + 250 |}.

Definition mint_ctx : TxContext :=
  {| sender := 200; tx_hash := 5; epoch := 1; ids_created := 0 |}.

Definition issuer_ctx : TxContext :=
  {| sender := 200; tx_hash := 6; epoch := 2; ids_created := 0 |}.

Definition holder_ctx : TxContext :=
  {| sender := 201; tx_hash := 7; epoch := 2; ids_created := 0 |}.

Definition second_holder_ctx : TxContext :=
  {| sender := 202; tx_hash := 8; epoch := 3; ids_created := 0 |}.

(** The token [mint_access_token] makes for holder 201 at second 1000,
    issued by seller 200 for the listing (2, 0). *)
Definition granted (access_type duration_days : Z) : AccessToken :=
  {| id := (5, 0); twin_id := "twin-1"; owner := 201;
     access_type := access_type; granted_at := 1000;
     expires_at := 1000 + duration_days * 86400; encrypted_key := "k3y";
     purchase_listing_id := (2, 0); is_active := true;
     original_seller := 200 |}.

Definition indexed : AccessRegistry :=
  {| registry_id := (0, 0); total_granted := 1;
     active_accesses := {[ 201 := [(5, 0)] ]} |}.

End token_scenario.

Module pool_scenario.
Import revenue_distribution.

Definition published : RevenuePool :=
  {| pool_id := (0, 0); balances := ∅; total_platform_fees := 0;
     platform_fee_recipient := 100 |}.

Definition seller_ctx : TxContext :=
  {| sender := 101; tx_hash := 11; epoch := 4; ids_created := 0 |}.

Definition stranger_ctx : TxContext :=
  {| sender := 555; tx_hash := 12; epoch := 4; ids_created := 0 |}.

(** The pool after one sale: 95 for seller 101, 5 for the platform. *)
Definition credited : RevenuePool :=
  {| pool_id := (0, 0); balances := {[ 101 := 95 ]}; total_platform_fees := 5;
     platform_fee_recipient := 100 |}.

(** The pool after seller 101 has withdrawn: the entry stays, at zero. *)
Definition emptied : RevenuePool :=
  {| pool_id := (0, 0); balances := {[ 101 := 0 ]}; total_platform_fees := 5;
     platform_fee_recipient := 100 |}.

End pool_scenario.

Module nft_scenario.
Import ai_twin_nft.

Definition minted : AITwinRegistry :=
  {| registry_id := (0, 0); total_minted := 1;
     twins := {[ "twin-1" := 101 ]} |}.

Definition empty : AITwinRegistry :=
  {| registry_id := (0, 0); total_minted := 0; twins := ∅ |}.

(** A sender that the registry does not record as the owner of "twin-1". *)
Definition other_ctx : TxContext :=
  {| sender := 102; tx_hash := 21; epoch := 5; ids_created := 0 |}.

End nft_scenario.

(** ** Transactions on the asset registry and on the revenue pool *)
Module nft_tx.
Import ai_twin_nft.

(** The entry functions that borrow the shared [AITwinRegistry]. *)
Inductive call : Type :=
| MintTwin (ctx : TxContext)
    (twin_id name description training_data_blob_id metadata : string)
| TransferTwin (ctx : TxContext) (nft : AITwinNFT) (recipient : address)
| BurnTwin (ctx : TxContext) (nft : AITwinNFT).

Definition run_call (c : call) (registry : AITwinRegistry)
  : result AITwinRegistry :=
  match c with
  | MintTwin ctx twin_id name description blob metadata =>
    match mint_ai_twin registry twin_id name description blob metadata
            (begin_tx ctx) with
    | Ok (registry', _) => Ok registry'
    | Err e => Err e
    end
  | TransferTwin ctx nft recipient =>
    match transfer_twin registry nft recipient (begin_tx ctx) with
    | Ok (registry', _) => Ok registry'
    | Err e => Err e
    end
  | BurnTwin ctx nft =>
    match burn_twin registry nft (begin_tx ctx) with
    | Ok (registry', _) => Ok registry'
    | Err e => Err e
    end
  end.

Definition step (registry : AITwinRegistry) (c : call) : AITwinRegistry :=
  commit registry (λ r, r) (run_call c registry).

Definition run (cs : list call) (registry : AITwinRegistry) : AITwinRegistry :=
  foldl step registry cs.

(** Every [transfer_twin] among the calls [cs], made in this order from
    [registry], is given an NFT whose twin id the registry knows at that
    point, as is the case for an NFT that [mint_ai_twin] made and
    [burn_twin] has not destroyed. *)
Fixpoint transfers_registered (cs : list call) (registry : AITwinRegistry)
  : Prop :=
  match cs with
  | [] => True
  | c :: cs' =>
    match c with
    | TransferTwin _ nft _ => twin_exists registry (twin_id nft) = true
    | _ => True
    end ∧ transfers_registered cs' (step registry c)
  end.

End nft_tx.

Module pool_tx.
Import revenue_distribution.

(** The functions that borrow the shared [RevenuePool]. *)
Inductive call : Type :=
| RecordSale (ctx : TxContext) (seller : address)
    (seller_payment platform_fee : Coin)
| WithdrawEarnings (ctx : TxContext)
| WithdrawPlatformFees (ctx : TxContext) (amount : Z).

(** A call gives the new pool and the effects of its transaction. *)
Definition run_call (c : call) (pool : RevenuePool)
  : result (RevenuePool * list Effect) :=
  match c with
  | RecordSale ctx seller seller_payment platform_fee =>
    match record_sale pool seller seller_payment platform_fee
            (begin_tx ctx) with
    | Ok (pool', s) => Ok (pool', tx_effects s)
    | Err e => Err e
    end
  | WithdrawEarnings ctx =>
    match withdraw_earnings pool (begin_tx ctx) with
    | Ok (pool', s) => Ok (pool', tx_effects s)
    | Err e => Err e
    end
  | WithdrawPlatformFees ctx amount =>
    match withdraw_platform_fees pool amount (begin_tx ctx) with
    | Ok (pool', s) => Ok (pool', tx_effects s)
    | Err e => Err e
    end
  end.

(** The value a call hands to the pool, and the value of the coins a
    transaction sends out of it. *)
Definition coins_in (c : call) : Z :=
  match c with
  | RecordSale _ _ seller_payment platform_fee =>
    coin_value seller_payment + coin_value platform_fee
  | _ => 0
  end.

Definition coins_out (effects : list Effect) : Z :=
  foldr (λ e acc,
           match e with
           | public_transfer coin _ => coin_value coin + acc
           | _ => acc
           end) 0 effects.

(** The pool together with the totals received and sent so far. *)
Record account : Type := {
  pool_of : RevenuePool;
  received : Z;
  sent : Z;
}.

Definition step (a : account) (c : call) : account :=
  match run_call c (pool_of a) with
  | Ok (pool', effects) =>
    {| pool_of := pool'; received := received a + coins_in c;
       sent := sent a + coins_out effects |}
  | Err _ => a
  end.

Definition run (cs : list call) (a : account) : account := foldl step a cs.

(** Everything the pool holds: the sellers' balances and the fees. *)
Definition held (pool : RevenuePool) : Z :=
  map_fold (λ _ balance acc, balance + acc) 0 (balances pool)
  + total_platform_fees pool.

End pool_tx.

(** * Verification *)

(** ** Reasoning about transactions *)
Section tx_lemmas.
Context {E : Type}.

Lemma bind_Ok {A B} (m : Tx E A) (f : A → Tx E B) s r :
  (m ≫= f) s = Ok r → ∃ a s1, m s = Ok (a, s1) ∧ f a s1 = Ok r.
Proof.
  unfold mbind, Tx_bind. destruct (m s) as [[a s1]|e]; [eauto | discriminate].
Qed.

Lemma bind_eval {A B} (m : Tx E A) (f : A → Tx E B) s a s1 :
  m s = Ok (a, s1) → (m ≫= f) s = f a s1.
Proof. unfold mbind, Tx_bind. now intros ->. Qed.

Lemma bind_abort {A B} (m : Tx E A) (f : A → Tx E B) s e :
  m s = Err e → (m ≫= f) s = Err e.
Proof. unfold mbind, Tx_bind. now intros ->. Qed.

Lemma assert_Ok (cond : bool) c (s : TxState E) r :
  assert cond c s = Ok r → cond = true ∧ r = (tt, s).
Proof. destruct cond; cbv; [intros [= <-]; auto | discriminate]. Qed.

Lemma assert_true c (s : TxState E) : assert true c s = Ok (tt, s).
Proof. reflexivity. Qed.

Lemma assert_false c (s : TxState E) : assert false c s = Err (Assert c).
Proof. reflexivity. Qed.

Lemma lift_Ok {A} (x : result A) (s : TxState E) r :
  lift x s = Ok r → ∃ a, x = Ok a ∧ r = (a, s).
Proof. destruct x; cbv; [intros [= <-]; eauto | discriminate]. Qed.

Lemma lift_eval {A} (a : A) (s : TxState E) : lift (Ok a) s = Ok (a, s).
Proof. reflexivity. Qed.

Lemma ret_Ok {A} (a : A) (s : TxState E) r :
  (mret a : Tx E A) s = Ok r → r = (a, s).
Proof. cbv. now intros [= <-]. Qed.

Lemma coin_split_Ok (self : Coin) amount (s : TxState E) r :
  coin_split self amount s = Ok r →
  amount ≤ coin_value self ∧
  ∃ id s1,
    r = ({| coin_id := coin_id self; coin_value := coin_value self - amount |},
         {| coin_id := id; coin_value := amount |}, s1) ∧
    tx_effects s1 = tx_effects s ∧
    sender (tx_ctx s1) = sender (tx_ctx s) ∧
    epoch (tx_ctx s1) = epoch (tx_ctx s).
Proof.
  unfold coin_split. destruct (Z.ltb_spec (coin_value self) amount);
    [discriminate |].
  cbv [mbind Tx_bind object_new mret Tx_ret]. intros [= <-].
  split; [lia |]. eexists _, _. split; [reflexivity |]. auto.
Qed.

Lemma coin_split_eval (self : Coin) amount (s : TxState E) :
  amount ≤ coin_value self →
  ∃ id s1,
    coin_split self amount s =
      Ok ({| coin_id := coin_id self; coin_value := coin_value self - amount |},
          {| coin_id := id; coin_value := amount |}, s1) ∧
    tx_effects s1 = tx_effects s ∧
    sender (tx_ctx s1) = sender (tx_ctx s) ∧
    epoch (tx_ctx s1) = epoch (tx_ctx s).
Proof.
  intros Hle. unfold coin_split.
  destruct (Z.ltb_spec (coin_value self) amount); [lia |].
  eexists _, _. split; [reflexivity |]. auto.
Qed.

End tx_lemmas.

Lemma add_u64_Ok a b r : add_u64 a b = Ok r → r = a + b ∧ a + b ≤ MAX_U64.
Proof.
  unfold add_u64. destruct (Z.leb_spec (a + b) MAX_U64); [|discriminate].
  now intros [= <-].
Qed.

Lemma add_u64_eval a b : a + b ≤ MAX_U64 → add_u64 a b = Ok (a + b).
Proof. intros. unfold add_u64. now destruct (Z.leb_spec (a + b) MAX_U64); [|lia]. Qed.

Lemma mul_u64_Ok a b r : mul_u64 a b = Ok r → r = a * b ∧ a * b ≤ MAX_U64.
Proof.
  unfold mul_u64. destruct (Z.leb_spec (a * b) MAX_U64); [|discriminate].
  now intros [= <-].
Qed.

Lemma mul_u64_eval a b : a * b ≤ MAX_U64 → mul_u64 a b = Ok (a * b).
Proof. intros. unfold mul_u64. now destruct (Z.leb_spec (a * b) MAX_U64); [|lia]. Qed.

Lemma sub_u64_Ok a b r : sub_u64 a b = Ok r → r = a - b ∧ b ≤ a.
Proof.
  unfold sub_u64. destruct (Z.leb_spec b a); [|discriminate]. now intros [= <-].
Qed.

Lemma sub_u64_eval a b : b ≤ a → sub_u64 a b = Ok (a - b).
Proof. intros. unfold sub_u64. now destruct (Z.leb_spec b a); [|lia]. Qed.

Lemma utf8_Ok bytes r : utf8 bytes = Ok r → r = bytes ∧ internal_check_utf8 bytes = true.
Proof. unfold utf8. destruct (internal_check_utf8 bytes); [|discriminate]. now intros [= <-]. Qed.

Lemma utf8_eval bytes : internal_check_utf8 bytes = true → utf8 bytes = Ok bytes.
Proof. unfold utf8. now intros ->. Qed.

(** Inversion of a transaction that went through, one bind at a time. *)
Ltac tx_inv H :=
  lazymatch type of H with
  | mbind _ _ _ = Ok _ =>
    let a := fresh "a" in
    let s := fresh "s" in
    let H1 := fresh "H" in
    apply bind_Ok in H; destruct H as (a & s & H1 & H);
    tx_inv H1; tx_inv H
  | assert _ _ _ = Ok _ =>
    let Hc := fresh "Hcond" in
    apply assert_Ok in H; destruct H as [Hc H]; inversion H; subst; clear H
  | lift _ _ = Ok _ =>
    let Hl := fresh "Hlift" in
    apply lift_Ok in H; destruct H as (? & Hl & H); inversion H; subst; clear H
  | mret _ _ = Ok _ => apply ret_Ok in H; inversion H; subst; clear H
  | tx_sender _ = Ok _ => inversion H; subst; clear H
  | tx_epoch _ = Ok _ => inversion H; subst; clear H
  | effect _ _ = Ok _ => inversion H; subst; clear H
  | object_new _ = Ok _ => inversion H; subst; clear H
  | (let '(_, _) := ?p in _) _ = Ok _ => destruct p; tx_inv H
  | _ => idtac
  end.

Lemma table_contains_true `{Countable K} {V} (t : gmap K V) k :
  table_contains t k = true ↔ is_Some (t !! k).
Proof. unfold table_contains. apply bool_decide_eq_true. Qed.

Lemma table_contains_false `{Countable K} {V} (t : gmap K V) k :
  table_contains t k = false ↔ t !! k = None.
Proof.
  unfold table_contains. rewrite bool_decide_eq_false.
  symmetry. apply eq_None_not_Some.
Qed.

(** Removing a key when present is deleting it. *)
Lemma remove_if_contains {E} `{Countable K} {V} (t : gmap K V) k
    (s : TxState E) :
  (if table_contains t k
   then '(_, t') ← lift (table_remove t k); mret t'
   else mret t) s = Ok (delete k t, s).
Proof.
  destruct (table_contains t k) eqn:Hc.
  - apply table_contains_true in Hc as [v Hv].
    unfold table_remove. rewrite Hv. reflexivity.
  - apply table_contains_false in Hc. rewrite delete_id by done. reflexivity.
Qed.


(** Closed arithmetic facts about concrete objects, by evaluation. *)
Ltac ground := repeat split; vm_compute; first [reflexivity | discriminate].

(** The UTF-8 check on a few byte strings: ASCII, a two-byte character,
    a continuation byte on its own, an overlong encoding. *)
Example utf8_samples :
  internal_check_utf8 "personal use" = true ∧
  internal_check_utf8 (String (ascii_of_nat 195) (String (ascii_of_nat 169) ""))
    = true ∧
  internal_check_utf8 (String (ascii_of_nat 169) "") = false ∧
  internal_check_utf8 (String (ascii_of_nat 192) (String (ascii_of_nat 128) ""))
    = false.
Proof. vm_compute. auto. Qed.

(** ** The listing ledger *)
Module marketplace_proofs.
Import marketplace listing_tx scenario.

(** What a purchase that goes through has checked and done. *)
Lemma purchase_access_Ok registry listing nft payment s
    registry' listing' nft' fee_coin seller_coin change s' :
  purchase_access registry listing nft payment s
    = Ok (registry', listing', (nft', fee_coin, seller_coin, change), s') →
  let fee := price listing * platform_fee_percent registry / 100 in
  is_active listing = true ∧
  price listing ≤ coin_value payment ∧
  price listing * platform_fee_percent registry ≤ MAX_U64 ∧
  fee ≤ price listing ∧
  coin_value fee_coin = fee ∧
  coin_value seller_coin = price listing - fee ∧
  coin_value change = coin_value payment - fee - (price listing - fee) ∧
  nft' = nft ∧
  listing' = set_is_active false listing ∧
  registry' =
    set_total_volume (total_volume registry + price listing)
      (set_total_sales (total_sales registry + 1) registry) ∧
  tx_effects s' =
    tx_effects s ++
      [PurchaseCompleted (id listing) (twin_id listing) (sender (tx_ctx s))
         (seller listing) (price listing) fee (price listing - fee)
         (epoch (tx_ctx s))].
Proof.
  intros H fee. unfold purchase_access in H. tx_inv H.
  apply mul_u64_Ok in Hlift as [-> Hmul].
  injection Hlift0 as <-.
  apply sub_u64_Ok in Hlift1 as [-> Hsub].
  apply add_u64_Ok in Hlift2 as [-> _].
  apply add_u64_Ok in Hlift3 as [-> _].
  apply coin_split_Ok in H0 as (_ & i0 & t0 & [= -> -> ->] & He0 & Hs0 & Hp0).
  apply coin_split_Ok in H1 as (_ & i1 & t1 & [= -> -> ->] & He1 & Hs1 & Hp1).
  apply Z.leb_le in Hcond0. simpl in *.
  rewrite He1, He0, Hp1, Hp0.
  repeat split; auto.
Qed.

Lemma purchase_access_inactive registry listing nft payment s :
  is_active listing = false →
  purchase_access registry listing nft payment s
    = Err (Assert ERROR_LISTING_INACTIVE).
Proof.
  intros Hina. unfold purchase_access.
  rewrite (bind_eval _ _ s (sender (tx_ctx s)) s) by reflexivity.
  rewrite Hina. reflexivity.
Qed.

Lemma purchase_access_underpaid registry listing nft payment s :
  is_active listing = true →
  coin_value payment < price listing →
  purchase_access registry listing nft payment s
    = Err (Assert ERROR_INSUFFICIENT_PAYMENT).
Proof.
  intros Hact Hlt. unfold purchase_access.
  rewrite (bind_eval _ _ s (sender (tx_ctx s)) s) by reflexivity.
  rewrite Hact, (bind_eval _ _ s tt s) by reflexivity.
  cbv zeta.
  destruct (Z.leb_spec (price listing) (coin_value payment)); [lia |].
  reflexivity.
Qed.

(** The fee of a price in the u64 range never exceeds the price. *)
Lemma fee_le_price p f : 0 ≤ p → 0 ≤ f ≤ 100 → 0 ≤ p * f / 100 ≤ p.
Proof.
  intros Hp Hf. split.
  - apply Z.div_pos; nia.
  - apply Z.div_le_upper_bound; nia.
Qed.

Lemma purchase_access_succeeds registry listing nft payment s :
  is_active listing = true →
  0 ≤ price listing ≤ coin_value payment →
  0 ≤ platform_fee_percent registry ≤ 100 →
  price listing * platform_fee_percent registry ≤ MAX_U64 →
  total_sales registry + 1 ≤ MAX_U64 →
  total_volume registry + price listing ≤ MAX_U64 →
  ∃ r, purchase_access registry listing nft payment s = Ok r.
Proof.
  intros Hact [Hp Hpay] Hf Hmul Hsales Hvol.
  pose proof (fee_le_price _ _ Hp Hf) as [Hfee0 Hfee].
  unfold purchase_access.
  rewrite (bind_eval _ _ s (sender (tx_ctx s)) s) by reflexivity.
  rewrite Hact, (bind_eval _ _ s tt s) by reflexivity.
  cbv zeta.
  destruct (Z.leb_spec (price listing) (coin_value payment)); [| lia].
  rewrite (bind_eval _ _ s tt s) by reflexivity.
  rewrite mul_u64_eval by lia.
  rewrite (bind_eval _ _ s _ s) by reflexivity.
  rewrite (bind_eval _ _ s _ s) by reflexivity.
  rewrite sub_u64_eval by lia.
  rewrite (bind_eval _ _ s _ s) by reflexivity.
  destruct (coin_split_eval (E := Effect) payment
              (price listing * platform_fee_percent registry / 100) s)
    as (i0 & s0 & Hs0 & _); [lia |].
  rewrite (bind_eval _ _ s _ s0 Hs0).
  destruct (coin_split_eval (E := Effect)
              {| coin_id := coin_id payment;
                 coin_value := coin_value payment
                   - price listing * platform_fee_percent registry / 100 |}
              (price listing
                 - price listing * platform_fee_percent registry / 100) s0)
    as (i1 & s1 & Hs1 & _); [simpl; lia |].
  rewrite (bind_eval _ _ s0 _ s1 Hs1).
  rewrite add_u64_eval by lia.
  rewrite (bind_eval _ _ s1 _ s1) by reflexivity.
  simpl. rewrite add_u64_eval by lia.
  eexists. reflexivity.
Qed.


Lemma delist_ai_twin_Ok registry listing s registry' listing' s' :
  delist_ai_twin registry listing s = Ok (registry', listing', s') →
  sender (tx_ctx s) = seller listing ∧
  is_active listing = true ∧
  listing' = set_is_active false listing ∧
  registry' = set_listings (delete (id listing) (listings registry)) registry.
Proof.
  intros H. unfold delist_ai_twin in H.
  apply bind_Ok in H as (a & s1 & H1 & H). tx_inv H1.
  apply bind_Ok in H as (? & s2 & H1 & H). tx_inv H1.
  apply bind_Ok in H as (? & s3 & H1 & H). tx_inv H1.
  cbv zeta in H.
  apply bind_Ok in H as (t & s4 & H1 & H).
  rewrite remove_if_contains in H1. injection H1 as <- <-.
  tx_inv H. apply Z.eqb_eq in Hcond. auto.
Qed.

Lemma delist_ai_twin_not_seller registry listing s :
  sender (tx_ctx s) ≠ seller listing →
  delist_ai_twin registry listing s = Err (Assert ERROR_NOT_SELLER).
Proof.
  intros Hne. unfold delist_ai_twin.
  rewrite (bind_eval _ _ s (sender (tx_ctx s)) s) by reflexivity.
  destruct (Z.eqb_spec (sender (tx_ctx s)) (seller listing)); [done |].
  reflexivity.
Qed.

Lemma delist_ai_twin_inactive registry listing s :
  sender (tx_ctx s) = seller listing →
  is_active listing = false →
  delist_ai_twin registry listing s = Err (Assert ERROR_LISTING_INACTIVE).
Proof.
  intros Heq Hina. unfold delist_ai_twin.
  rewrite (bind_eval _ _ s (sender (tx_ctx s)) s) by reflexivity.
  rewrite Heq, Z.eqb_refl, (bind_eval _ _ s tt s) by reflexivity.
  rewrite Hina. reflexivity.
Qed.

Lemma update_listing_Ok listing new_price new_terms s listing' s' :
  update_listing listing new_price new_terms s = Ok (listing', s') →
  sender (tx_ctx s) = seller listing ∧
  is_active listing = true ∧
  listing' = set_terms new_terms (set_price new_price listing).
Proof.
  intros H. unfold update_listing in H. tx_inv H.
  apply Z.eqb_eq in Hcond. apply utf8_Ok in Hlift as [-> _]. auto.
Qed.

Lemma complete_purchase_Ok registry listing nft payment s registry' listing' s' :
  complete_purchase registry listing nft payment s
    = Ok (registry', listing', s') →
  ∃ nft' fee_coin seller_coin change s1,
    purchase_access registry listing nft payment s
      = Ok (registry', listing', (nft', fee_coin, seller_coin, change), s1).
Proof.
  intros H. unfold complete_purchase in H.
  apply bind_Ok in H as (a & s0 & H0 & H). tx_inv H0.
  apply bind_Ok in H as ([[r l] [[[n f] sp] ch]] & s1 & H1 & H).
  apply bind_Ok in H as (? & ? & _ & H).
  apply bind_Ok in H as (? & ? & _ & H).
  apply bind_Ok in H as (? & ? & _ & H).
  apply bind_Ok in H as (? & ? & _ & H).
  tx_inv H. eauto 10.
Qed.

Lemma complete_purchase_abort registry listing nft payment s e :
  purchase_access registry listing nft payment s = Err e →
  complete_purchase registry listing nft payment s = Err e.
Proof.
  intros H. unfold complete_purchase.
  rewrite (bind_eval _ _ s (sender (tx_ctx s)) s) by reflexivity.
  now apply bind_abort.
Qed.

Lemma list_ai_twin_Ok registry nft p a d t s registry' s' :
  list_ai_twin registry nft p a d t s = Ok (registry', s') →
  let listing :=
    {| id := (tx_hash (tx_ctx s), ids_created (tx_ctx s));
       twin_id := ai_twin_nft.twin_id nft; nft_id := ai_twin_nft.id nft;
       seller := sender (tx_ctx s); price := p; access_type := a;
       access_duration_days := d; terms := t; is_active := true;
       created_at := epoch (tx_ctx s) |} in
  (a = ACCESS_TYPE_FULL ∨ a = ACCESS_TYPE_LIMITED ∨ a = ACCESS_TYPE_TEMPORARY) ∧
  listings registry !! id listing = None ∧
  registry' =
    set_total_listings (total_listings registry + 1)
      (set_listings (<[id listing := true]> (listings registry)) registry) ∧
  last (tx_effects s') = Some (share_listing listing).
Proof.
  intros H listing. unfold list_ai_twin in H. tx_inv H.
  apply utf8_Ok in Hlift as [-> _].
  apply add_u64_Ok in Hlift1 as [-> _].
  unfold table_add in Hlift0. simpl in *.
  destruct (listings registry !! _) eqn:Hl; [discriminate |].
  injection Hlift0 as <-.
  repeat split; auto.
  - rewrite !orb_true_iff, !Z.eqb_eq in Hcond. tauto.
  - apply last_snoc.
Qed.

(** *** A listing that is no longer active *)

(** No call changes a listing whose [is_active] flag is off: the flag is
    a terminal state. *)
Lemma step_inactive st c :
  is_active (snd st) = false → snd (step st c) = snd st.
Proof.
  destruct st as [registry listing]. simpl. intros Hina.
  unfold step, run_call.
  destruct c as [ctx nft p a d t | ctx p t | ctx | ctx nft pay | ctx nft pay].
  - destruct (list_ai_twin _ _ _ _ _ _ _) as [[r s]|e]; reflexivity.
  - destruct (update_listing _ _ _ _) as [[l s]|e] eqn:H; [| reflexivity].
    apply update_listing_Ok in H as (_ & Hact & _). congruence.
  - destruct (delist_ai_twin _ _ _) as [[[r l] s]|e] eqn:H; [| reflexivity].
    apply delist_ai_twin_Ok in H as (_ & Hact & _). congruence.
  - now rewrite purchase_access_inactive.
  - now rewrite (complete_purchase_abort _ _ _ _ _ _
                   (purchase_access_inactive _ _ _ _ _ Hina)).
Qed.

Lemma run_inactive cs st :
  is_active (snd st) = false → snd (run cs st) = snd st.
Proof.
  revert st. induction cs as [| c cs IH]; intros st Hina; [reflexivity |].
  unfold run in *. simpl.
  rewrite IH; rewrite step_inactive; auto.
Qed.

(** Nor does any call take an entry out of the registry's table while the
    listing is inactive: delisting is the only call that removes one, and
    it aborts. *)
Lemma step_inactive_entry st c k b :
  is_active (snd st) = false →
  listings (fst st) !! k = Some b →
  listings (fst (step st c)) !! k = Some b.
Proof.
  destruct st as [registry listing]. simpl. intros Hina Hk.
  unfold step, run_call.
  destruct c as [ctx nft p a d t | ctx p t | ctx | ctx nft pay | ctx nft pay].
  - destruct (list_ai_twin _ _ _ _ _ _ _) as [[r s]|e] eqn:H; [| exact Hk].
    apply list_ai_twin_Ok in H. cbv zeta in H.
    destruct H as (_ & Hfresh & -> & _). simpl in *.
    rewrite lookup_insert_ne by congruence. exact Hk.
  - destruct (update_listing _ _ _ _) as [[l s]|e]; exact Hk.
  - destruct (delist_ai_twin _ _ _) as [[[r l] s]|e] eqn:H; [| exact Hk].
    apply delist_ai_twin_Ok in H as (_ & Hact & _). congruence.
  - now rewrite purchase_access_inactive.
  - now rewrite (complete_purchase_abort _ _ _ _ _ _
                   (purchase_access_inactive _ _ _ _ _ Hina)).
Qed.

Lemma run_inactive_entry cs st k b :
  is_active (snd st) = false →
  listings (fst st) !! k = Some b →
  listings (fst (run cs st)) !! k = Some b.
Proof.
  revert st. induction cs as [| c cs IH]; intros st Hina Hk; [exact Hk |].
  unfold run in *. simpl. apply IH.
  - now rewrite step_inactive.
  - now apply step_inactive_entry.
Qed.

(** A settlement or a delisting that goes through turns the flag off. *)
Lemma settles_Ok c st st' :
  settles c = true → run_call c st = Ok st' →
  is_active (snd st) = true ∧ snd st' = set_is_active false (snd st).
Proof.
  destruct st as [registry listing], st' as [registry' listing'].
  destruct c as [ctx nft p a d t | ctx p t | ctx | ctx nft pay | ctx nft pay];
    try discriminate; intros _; simpl.
  - destruct (delist_ai_twin _ _ _) as [[[r l] s]|e] eqn:H; [| discriminate].
    intros [= -> ->].
    apply delist_ai_twin_Ok in H as (_ & Hact & -> & _). auto.
  - destruct (purchase_access _ _ _ _ _) as [[[[r l] [[[n f] sp] ch]] s]|e] eqn:H;
      [| discriminate].
    intros [= -> ->].
    apply purchase_access_Ok in H. cbv zeta in H. intuition.
  - destruct (complete_purchase _ _ _ _ _) as [[[r l] s]|e] eqn:H;
      [| discriminate].
    intros [= -> ->].
    apply complete_purchase_Ok in H as (n & f & sp & ch & s1 & H).
    apply purchase_access_Ok in H. cbv zeta in H. intuition.
Qed.

Lemma settles_inactive c st :
  settles c = true → is_active (snd st) = false →
  run_call c st = Err (Assert (inactive_code c (snd st))).
Proof.
  destruct st as [registry listing].
  destruct c as [ctx nft p a d t | ctx p t | ctx | ctx nft pay | ctx nft pay];
    try discriminate; intros _ Hina; simpl in *.
  - destruct (Z.eqb_spec (sender ctx) (seller listing)) as [Heq | Hne].
    + now rewrite delist_ai_twin_inactive.
    + now rewrite delist_ai_twin_not_seller.
  - now rewrite purchase_access_inactive.
  - now rewrite (complete_purchase_abort _ _ _ _ _ _
                   (purchase_access_inactive _ _ _ _ _ Hina)).
Qed.


(** Publishing and listing [twin_nft] for 100 give [listed] and [offer]. *)
Example init_published :
  init (begin_tx {| sender := 100; tx_hash := 0; epoch := 0; ids_created := 0 |})
  = Ok (tt, {| tx_ctx := {| sender := 100; tx_hash := 0; epoch := 0;
                            ids_created := 1 |};
               tx_effects := [share_registry published] |}).
Proof. reflexivity. Qed.

Example list_offer :
  list_ai_twin published twin_nft 100 ACCESS_TYPE_FULL 0 "personal use"
    (begin_tx seller_ctx)
  = Ok (listed,
        {| tx_ctx := {| sender := 101; tx_hash := 2; epoch := 1;
                        ids_created := 1 |};
           tx_effects :=
             [ListingCreated (2, 0) "twin-1" 101 100 ACCESS_TYPE_FULL 1;
              share_listing offer] |}).
Proof. vm_compute. reflexivity. Qed.

(** *** Claims on the listing ledger *)

(** C1, as the claim words it, fails: after the seller has delisted
    [offer], a [delist_ai_twin] sent by somebody else aborts with
    [ERROR_NOT_SELLER], not with [ERROR_LISTING_INACTIVE]. *)
Lemma C1_second_delist_by_stranger_not_inactive :
  ∃ st1,
    run_call (Delist seller_ctx) (listed, offer) = Ok st1 ∧
    is_active (snd st1) = false ∧
    run_call (Delist buyer_ctx) st1 = Err (Assert ERROR_NOT_SELLER) ∧
    run_call (Delist buyer_ctx) st1 ≠ Err (Assert ERROR_LISTING_INACTIVE).
Proof.
  eexists. split; [vm_compute; reflexivity |].
  split; [reflexivity |]. split; [reflexivity | discriminate].
Qed.

(** C1 (amended): once a [purchase_access], [complete_purchase] or
    [delist_ai_twin] on a listing has gone through, the listing's
    [is_active] flag is off and the listing never changes again, whatever
    calls follow; every later purchase aborts with [ERROR_LISTING_INACTIVE],
    and every later delist aborts too, with [ERROR_LISTING_INACTIVE] when the
    seller sends it and with [ERROR_NOT_SELLER] otherwise.  So at most one
    such call ever succeeds. *)
Theorem C1_settled_listing_rejects_later_calls c0 st0 st1 cs c :
  settles c0 = true →
  run_call c0 st0 = Ok st1 →
  settles c = true →
  snd (run cs st1) = set_is_active false (snd st0) ∧
  is_active (snd (run cs st1)) = false ∧
  run_call c (run cs st1) = Err (Assert (inactive_code c (snd st0))).
Proof.
  intros Hc0 Hrun Hc.
  destruct (settles_Ok _ _ _ Hc0 Hrun) as [_ Hst1].
  assert (Hina : is_active (snd st1) = false) by now rewrite Hst1.
  pose proof (run_inactive cs st1 Hina) as Hsame.
  rewrite Hsame, Hst1. split; [reflexivity |]. split; [reflexivity |].
  rewrite settles_inactive by (auto; now rewrite Hsame).
  rewrite Hsame, Hst1. destruct c; reflexivity.
Qed.

Lemma C1_settled_listing_rejects_later_calls_witness :
  snd (run [Update seller_ctx 50 "cheaper"; Delist seller_ctx]
         (set_total_volume 100 (set_total_sales 1 listed),
          set_is_active false offer))
    = set_is_active false (snd (listed, offer)) ∧
  is_active
    (snd (run [Update seller_ctx 50 "cheaper"; Delist seller_ctx]
            (set_total_volume 100 (set_total_sales 1 listed),
             set_is_active false offer))) = false ∧
  run_call (Purchase buyer_ctx twin_nft (coin 100))
    (run [Update seller_ctx 50 "cheaper"; Delist seller_ctx]
       (set_total_volume 100 (set_total_sales 1 listed),
        set_is_active false offer))
    = Err (Assert
             (inactive_code (Purchase buyer_ctx twin_nft (coin 100))
                (snd (listed, offer)))).
Proof.
  apply (C1_settled_listing_rejects_later_calls
           (Purchase buyer_ctx twin_nft (coin 100)) (listed, offer)
           (set_total_volume 100 (set_total_sales 1 listed),
            set_is_active false offer)
           [Update seller_ctx 50 "cheaper"; Delist seller_ctx]
           (Purchase buyer_ctx twin_nft (coin 100)));
    [reflexivity | vm_compute; reflexivity | reflexivity].
Defined.

(** C2: a purchase that goes through on a listing of price [p >= 1], with a
    registry fee percentage [f] between 0 and 100, splits the price into
    [platform_fee = floor (p * f / 100)] and [seller_amount = p -
    platform_fee]; the two coins handed out add up to [p], and the
    [PurchaseCompleted] event carries the same two amounts. *)
Theorem C2_fee_split_conserves_price registry listing nft payment s
    registry' listing' nft' fee_coin seller_coin change s' :
  1 ≤ price listing →
  0 ≤ platform_fee_percent registry ≤ 100 →
  purchase_access registry listing nft payment s
    = Ok (registry', listing', (nft', fee_coin, seller_coin, change), s') →
  let p := price listing in
  let f := platform_fee_percent registry in
  let platform_fee := coin_value fee_coin in
  let seller_amount := coin_value seller_coin in
  platform_fee = p * f / 100 ∧
  100 * platform_fee ≤ p * f < 100 * (platform_fee + 1) ∧
  seller_amount = p - platform_fee ∧
  platform_fee + seller_amount = p ∧
  0 ≤ platform_fee ∧ 0 ≤ seller_amount ∧
  last (tx_effects s') =
    Some (PurchaseCompleted (id listing) (twin_id listing) (sender (tx_ctx s))
            (seller listing) p platform_fee seller_amount (epoch (tx_ctx s))).
Proof.
  intros Hp Hf H p f platform_fee seller_amount.
  apply purchase_access_Ok in H. cbv zeta in H.
  destruct H as (_ & _ & _ & Hle & Hfee & Hsell & _ & _ & _ & _ & Heff).
  subst p f platform_fee seller_amount. rewrite Hfee, Hsell, Heff.
  pose proof (fee_le_price (price listing) (platform_fee_percent registry))
    as Hb.
  pose proof (Z.mul_div_le (price listing * platform_fee_percent registry) 100).
  pose proof (Z.mul_succ_div_gt
                (price listing * platform_fee_percent registry) 100).
  repeat split; try lia. apply last_snoc.
Qed.

Lemma C2_fee_split_conserves_price_witness :
  let fee_coin := {| coin_id := (3, 0); coin_value := 5 |} in
  let seller_coin := {| coin_id := (3, 1); coin_value := 95 |} in
  coin_value fee_coin = price offer * platform_fee_percent listed / 100 ∧
  100 * coin_value fee_coin ≤ price offer * platform_fee_percent listed
    < 100 * (coin_value fee_coin + 1) ∧
  coin_value seller_coin = price offer - coin_value fee_coin ∧
  coin_value fee_coin + coin_value seller_coin = price offer ∧
  0 ≤ coin_value fee_coin ∧ 0 ≤ coin_value seller_coin ∧
  last (tx_effects
          {| tx_ctx := {| sender := 102; tx_hash := 3; epoch := 1;
                          ids_created := 2 |};
             tx_effects :=
               [PurchaseCompleted (2, 0) "twin-1" 102 101 100 5 95 1] |}) =
    Some (PurchaseCompleted (id offer) (twin_id offer)
            (sender (tx_ctx (begin_tx (E := Effect) buyer_ctx)))
            (seller offer) (price offer) (coin_value fee_coin)
            (coin_value seller_coin)
            (epoch (tx_ctx (begin_tx (E := Effect) buyer_ctx)))).
Proof.
  apply (C2_fee_split_conserves_price listed offer twin_nft (coin 120)
           (begin_tx buyer_ctx)
           (set_total_volume 100 (set_total_sales 1 listed))
           (set_is_active false offer) twin_nft
           {| coin_id := (3, 0); coin_value := 5 |}
           {| coin_id := (3, 1); coin_value := 95 |}
           {| coin_id := (9, 0); coin_value := 20 |}
           {| tx_ctx := {| sender := 102; tx_hash := 3; epoch := 1;
                           ids_created := 2 |};
              tx_effects :=
                [PurchaseCompleted (2, 0) "twin-1" 102 101 100 5 95 1] |});
    [ground | ground | vm_compute; reflexivity].
Defined.

(** C5: on an active listing, a purchase whose payment is below the price
    aborts with [ERROR_INSUFFICIENT_PAYMENT]; the registry and the listing
    are exactly what they were, the listing is still active, and a later
    purchase that pays the price goes through (as long as the u64 fee
    product and the registry counters do not overflow) and turns the
    listing off. *)
Theorem C5_underpaid_purchase_changes_nothing registry listing ctx nft payment :
  is_active listing = true →
  coin_value payment < price listing →
  let attempt := Purchase ctx nft payment in
  run_call attempt (registry, listing)
    = Err (Assert ERROR_INSUFFICIENT_PAYMENT) ∧
  step (registry, listing) attempt = (registry, listing) ∧
  is_active (snd (step (registry, listing) attempt)) = true ∧
  ∀ ctx' nft' payment',
    0 ≤ price listing ≤ coin_value payment' →
    0 ≤ platform_fee_percent registry ≤ 100 →
    price listing * platform_fee_percent registry ≤ MAX_U64 →
    total_sales registry + 1 ≤ MAX_U64 →
    total_volume registry + price listing ≤ MAX_U64 →
    ∃ registry' listing',
      run_call (Purchase ctx' nft' payment') (step (registry, listing) attempt)
        = Ok (registry', listing') ∧
      is_active listing' = false.
Proof.
  intros Hact Hlt attempt.
  assert (Herr : run_call attempt (registry, listing)
                 = Err (Assert ERROR_INSUFFICIENT_PAYMENT)).
  { simpl. now rewrite purchase_access_underpaid. }
  assert (Hstep : step (registry, listing) attempt = (registry, listing)).
  { unfold step. now rewrite Herr. }
  rewrite Hstep. repeat split; auto.
  intros ctx' nft' payment' Hpay Hf Hmul Hsales Hvol.
  destruct (purchase_access_succeeds registry listing nft' payment'
              (begin_tx ctx') Hact Hpay Hf Hmul Hsales Hvol)
    as ([[[r l] [[[n f] sp] ch]] s1] & Hok).
  exists r, l. simpl. rewrite Hok. split; [reflexivity |].
  apply purchase_access_Ok in Hok. cbv zeta in Hok.
  destruct Hok as (_ & _ & _ & _ & _ & _ & _ & _ & -> & _). reflexivity.
Qed.

Lemma C5_underpaid_purchase_changes_nothing_witness :
  let attempt := Purchase buyer_ctx twin_nft (coin 50) in
  run_call attempt (listed, offer) = Err (Assert ERROR_INSUFFICIENT_PAYMENT) ∧
  step (listed, offer) attempt = (listed, offer) ∧
  is_active (snd (step (listed, offer) attempt)) = true ∧
  ∀ ctx' nft' payment',
    0 ≤ price offer ≤ coin_value payment' →
    0 ≤ platform_fee_percent listed ≤ 100 →
    price offer * platform_fee_percent listed ≤ MAX_U64 →
    total_sales listed + 1 ≤ MAX_U64 →
    total_volume listed + price offer ≤ MAX_U64 →
    ∃ registry' listing',
      run_call (Purchase ctx' nft' payment') (step (listed, offer) attempt)
        = Ok (registry', listing') ∧
      is_active listing' = false.
Proof.
  apply (C5_underpaid_purchase_changes_nothing listed offer buyer_ctx twin_nft
           (coin 50)); [reflexivity | ground].
Defined.

(** The later purchase of the scenario: after the attempt with 50, a
    payment of 100 settles [offer]. *)
Example underpaid_then_paid :
  run_call (Purchase buyer_ctx twin_nft (coin 100))
    (step (listed, offer) (Purchase buyer_ctx twin_nft (coin 50)))
  = Ok (set_total_volume 100 (set_total_sales 1 listed),
        set_is_active false offer).
Proof. vm_compute. reflexivity. Qed.

(** C9, as the claim words it, fails: [list_ai_twin] with the Temporary
    access type and [access_duration_days = 0] does not abort; it shares an
    active listing. *)
Lemma C9_temporary_zero_days_is_listed :
  ∃ registry' s' listing,
    list_ai_twin published twin_nft 100 ACCESS_TYPE_TEMPORARY 0 "personal use"
      (begin_tx seller_ctx) = Ok (registry', s') ∧
    last (tx_effects s') = Some (share_listing listing) ∧
    access_type listing = ACCESS_TYPE_TEMPORARY ∧
    access_duration_days listing = 0 ∧
    is_active listing = true ∧
    listings registry' !! id listing = Some true.
Proof.
  eexists _, _, _. split; [vm_compute; reflexivity |].
  repeat split; reflexivity.
Qed.

(** C9 (amended): [list_ai_twin] aborts with [ERROR_INVALID_ACCESS_TYPE]
    exactly when [access_type] is none of Full (1), Limited (2) and
    Temporary (3); the duration is not looked at.  For each of the three
    kinds and any [access_duration_days], zero included, it registers and
    shares a listing with [is_active = true] (given well-formed terms, a
    fresh object id and no overflow of the listing counter). *)
Theorem C9_list_checks_access_type_only registry nft p a d t s :
  let recognized :=
    a = ACCESS_TYPE_FULL ∨ a = ACCESS_TYPE_LIMITED ∨ a = ACCESS_TYPE_TEMPORARY in
  (list_ai_twin registry nft p a d t s = Err (Assert ERROR_INVALID_ACCESS_TYPE)
   ↔ ¬ recognized) ∧
  (recognized →
   internal_check_utf8 t = true →
   listings registry !! (tx_hash (tx_ctx s), ids_created (tx_ctx s)) = None →
   total_listings registry + 1 ≤ MAX_U64 →
   ∃ registry' s' listing,
     list_ai_twin registry nft p a d t s = Ok (registry', s') ∧
     last (tx_effects s') = Some (share_listing listing) ∧
     is_active listing = true ∧
     seller listing = sender (tx_ctx s) ∧
     price listing = p ∧
     access_type listing = a ∧
     access_duration_days listing = d ∧
     listings registry' !! id listing = Some true).
Proof.
  intros recognized.
  assert (Hrec : ((a =? ACCESS_TYPE_FULL) || (a =? ACCESS_TYPE_LIMITED)
                  || (a =? ACCESS_TYPE_TEMPORARY)) = true ↔ recognized).
  { unfold recognized. rewrite !orb_true_iff, !Z.eqb_eq. tauto. }
  assert (Hsucc : recognized →
    internal_check_utf8 t = true →
    listings registry !! (tx_hash (tx_ctx s), ids_created (tx_ctx s)) = None →
    total_listings registry + 1 ≤ MAX_U64 →
    ∃ r, list_ai_twin registry nft p a d t s = Ok r).
  { intros Hr Hu Hfresh Hcnt. apply Hrec in Hr. unfold list_ai_twin.
    rewrite (bind_eval _ _ s (sender (tx_ctx s)) s) by reflexivity.
    rewrite Hr, (bind_eval _ _ s tt s) by reflexivity.
    cbv zeta.
    erewrite bind_eval by reflexivity.
    rewrite utf8_eval by done.
    erewrite bind_eval by reflexivity.
    erewrite bind_eval by reflexivity.
    unfold table_add. simpl. rewrite Hfresh.
    erewrite bind_eval by reflexivity.
    simpl. rewrite add_u64_eval by done.
    eexists. reflexivity. }
  split; [split |].
  - intros Herr Hr. apply Hrec in Hr.
    unfold list_ai_twin in Herr.
    rewrite (bind_eval _ _ s (sender (tx_ctx s)) s) in Herr by reflexivity.
    rewrite Hr, (bind_eval _ _ s tt s) in Herr by reflexivity.
    cbv zeta in Herr.
    erewrite bind_eval in Herr by reflexivity.
    destruct (utf8 t) as [t'|e] eqn:Hu; simpl in Herr; [| unfold utf8 in Hu;
      destruct (internal_check_utf8 t); [discriminate | injection Hu as <-;
      cbv in Herr; discriminate]].
    erewrite bind_eval in Herr by reflexivity.
    erewrite bind_eval in Herr by reflexivity.
    unfold table_add in Herr. simpl in Herr.
    destruct (listings registry !! _); [cbv in Herr; discriminate |].
    erewrite bind_eval in Herr by reflexivity.
    simpl in Herr. unfold add_u64 in Herr.
    destruct (_ <=? _); cbv in Herr; discriminate.
  - intros Hnr. unfold list_ai_twin.
    rewrite (bind_eval _ _ s (sender (tx_ctx s)) s) by reflexivity.
    assert (Hb : ((a =? ACCESS_TYPE_FULL) || (a =? ACCESS_TYPE_LIMITED)
                  || (a =? ACCESS_TYPE_TEMPORARY)) = false)
      by (apply not_true_iff_false; now rewrite Hrec).
    rewrite Hb. reflexivity.
  - intros Hr Hu Hfresh Hcnt.
    destruct (Hsucc Hr Hu Hfresh Hcnt) as ([r s'] & Hok).
    pose proof (list_ai_twin_Ok _ _ _ _ _ _ _ _ _ Hok) as H.
    cbv zeta in H. destruct H as (_ & _ & -> & Hlast).
    eexists _, _, _. split; [exact Hok |]. split; [exact Hlast |].
    simpl. repeat split; auto. apply lookup_insert_eq.
Qed.

Lemma C9_list_checks_access_type_only_witness :
  ∃ registry' s' listing,
    list_ai_twin published twin_nft 100 ACCESS_TYPE_LIMITED 7 "personal use"
      (begin_tx seller_ctx) = Ok (registry', s') ∧
    last (tx_effects s') = Some (share_listing listing) ∧
    is_active listing = true ∧
    seller listing = sender (tx_ctx (begin_tx (E := Effect) seller_ctx)) ∧
    price listing = 100 ∧
    access_type listing = ACCESS_TYPE_LIMITED ∧
    access_duration_days listing = 7 ∧
    listings registry' !! id listing = Some true.
Proof.
  apply (proj2 (C9_list_checks_access_type_only published twin_nft 100
                  ACCESS_TYPE_LIMITED 7 "personal use" (begin_tx seller_ctx)));
    [right; left; reflexivity | reflexivity | reflexivity | ground].
Defined.

(** C10: a purchase that goes through does not touch the registry's
    [listings] table.  If the table mapped the listing's id to [true]
    before, it still does afterwards and after any further calls, although
    the listing's own [is_active] flag is [false] from then on: the two
    disagree for good.  Of all the calls, only
    [delist_ai_twin] takes an entry out of the table: [update_listing]
    cannot reach the registry and [list_ai_twin] only adds an entry. *)
Theorem C10_purchase_keeps_registry_entry c st st' :
  run_call c st = Ok st' →
  match c with
  | Purchase _ _ _ | Complete _ _ _ =>
    listings (fst st') = listings (fst st) ∧
    id (snd st') = id (snd st) ∧
    is_active (snd st') = false ∧
    (listings (fst st) !! id (snd st) = Some true →
     ∀ cs, listings (fst (run cs st')) !! id (snd (run cs st')) = Some true ∧
           is_active (snd (run cs st')) = false)
  | Delist _ => listings (fst st') = delete (id (snd st)) (listings (fst st))
  | Update _ _ _ => listings (fst st') = listings (fst st)
  | ListTwin _ _ _ _ _ _ =>
    ∀ k, is_Some (listings (fst st) !! k) →
         listings (fst st') !! k = listings (fst st) !! k
  end.
Proof.
  destruct st as [registry listing], st' as [registry' listing'].
  assert (Hpurchase : ∀ nft payment s n f sp ch s1,
    purchase_access registry listing nft payment s
      = Ok (registry', listing', (n, f, sp, ch), s1) →
    listings registry' = listings registry ∧
    id listing' = id listing ∧
    is_active listing' = false ∧
    (listings registry !! id listing = Some true →
     ∀ cs, listings (fst (run cs (registry', listing')))
             !! id (snd (run cs (registry', listing'))) = Some true ∧
           is_active (snd (run cs (registry', listing'))) = false)).
  { intros * H. apply purchase_access_Ok in H. cbv zeta in H.
    destruct H as (_ & _ & _ & _ & _ & _ & _ & _ & -> & -> & _).
    do 3 (split; [reflexivity |]).
    intros Hk cs. rewrite run_inactive by reflexivity.
    split; [| reflexivity].
    now apply run_inactive_entry. }
  destruct c as [ctx nft p a d t | ctx p t | ctx | ctx nft pay | ctx nft pay];
    simpl.
  - destruct (list_ai_twin _ _ _ _ _ _ _) as [[r s]|e] eqn:H; [| discriminate].
    intros [= -> ->] k [b Hk].
    apply list_ai_twin_Ok in H. cbv zeta in H.
    destruct H as (_ & Hfresh & -> & _). simpl in *.
    apply lookup_insert_ne. congruence.
  - destruct (update_listing _ _ _ _) as [[l s]|e]; [| discriminate].
    now intros [= -> ->].
  - destruct (delist_ai_twin _ _ _) as [[[r l] s]|e] eqn:H; [| discriminate].
    intros [= -> ->].
    apply delist_ai_twin_Ok in H as (_ & _ & _ & ->). reflexivity.
  - destruct (purchase_access _ _ _ _ _) as [[[[r l] [[[n f] sp] ch]] s]|e] eqn:H;
      [| discriminate].
    intros [= -> ->]. eapply Hpurchase, H.
  - destruct (complete_purchase _ _ _ _ _) as [[[r l] s]|e] eqn:H;
      [| discriminate].
    intros [= -> ->].
    apply complete_purchase_Ok in H as (n & f & sp & ch & s1 & H).
    eapply Hpurchase, H.
Qed.

Lemma C10_purchase_keeps_registry_entry_witness :
  let st' := (set_total_volume 100 (set_total_sales 1 listed),
              set_is_active false offer) in
  listings (fst st') = listings (fst (listed, offer)) ∧
  id (snd st') = id (snd (listed, offer)) ∧
  is_active (snd st') = false ∧
  (listings (fst (listed, offer)) !! id (snd (listed, offer)) = Some true →
   ∀ cs, listings (fst (run cs st')) !! id (snd (run cs st')) = Some true ∧
         is_active (snd (run cs st')) = false).
Proof.
  apply (C10_purchase_keeps_registry_entry
           (Complete buyer_ctx twin_nft (coin 100)) (listed, offer)
           (set_total_volume 100 (set_total_sales 1 listed),
            set_is_active false offer)).
  vm_compute. reflexivity.
Defined.

(** After listing and selling [offer], the registry still records the
    listing as active, while the seller's delisting would have removed it. *)
Example sold_listing_still_indexed :
  let sold := step (listed, offer) (Complete buyer_ctx twin_nft (coin 100)) in
  listings (fst sold) !! id offer = Some true ∧
  is_active (snd sold) = false ∧
  listings (fst (step (listed, offer) (Delist seller_ctx))) !! id offer = None.
Proof. vm_compute. auto. Qed.

End marketplace_proofs.

(** ** The access-credential ledger *)
Module access_token_proofs.
Import access_token token_tx token_scenario.

Lemma check_access_true token clock :
  check_access token clock = true ↔
  is_active token = true ∧ seconds clock < expires_at token.
Proof.
  unfold check_access, seconds.
  destruct (is_active token); simpl; [rewrite Z.ltb_lt |]; intuition discriminate.
Qed.

Lemma push_back_at_eval (t : gmap address (list ID)) k v e :
  t !! k = Some v → push_back_at t k e = Ok (<[k := v ++ [e]]> t).
Proof. intros Hk. unfold push_back_at, table_borrow. now rewrite Hk. Qed.

(** Indexing a token id under [k]: the entry is made when it is missing,
    and the id goes to the end of the vector. *)
Lemma ensure_entry_eval {E} (t : gmap address (list ID)) k (s : TxState E) :
  (if negb (table_contains t k) then lift (table_add t k []) else mret t) s
  = Ok (<[k := default [] (t !! k)]> t, s).
Proof.
  destruct (table_contains t k) eqn:Hc; cbn [negb].
  - apply table_contains_true in Hc as [v Hv].
    rewrite Hv. simpl. now rewrite insert_id.
  - apply table_contains_false in Hc.
    unfold table_add. now rewrite Hc.
Qed.

Lemma push_back_entry (t : gmap address (list ID)) k v e :
  push_back_at (<[k := v]> t) k e = Ok (<[k := v ++ [e]]> t).
Proof.
  rewrite (push_back_at_eval _ _ v) by apply lookup_insert_eq.
  now rewrite insert_insert_eq.
Qed.

Lemma mint_access_token_Ok registry twin holder a d key lid issuer clock s
    registry' token s' :
  mint_access_token registry twin holder a d key lid issuer clock s
    = Ok (registry', token, s') →
  token =
    {| id := (tx_hash (tx_ctx s), ids_created (tx_ctx s)); twin_id := twin;
       owner := holder; access_type := a; granted_at := seconds clock;
       expires_at := seconds clock + d * SECONDS_PER_DAY;
       encrypted_key := key; purchase_listing_id := lid; is_active := true;
       original_seller := issuer |} ∧
  seconds clock + d * SECONDS_PER_DAY ≤ MAX_U64 ∧
  active_accesses registry' =
    <[holder := default [] (active_accesses registry !! holder) ++ [id token]]>
      (active_accesses registry) ∧
  total_granted registry' = total_granted registry + 1.
Proof.
  intros H. unfold mint_access_token in H.
  apply bind_Ok in H as (? & ? & H1 & H). tx_inv H1. injection Hlift as <-.
  apply bind_Ok in H as (? & ? & H1 & H). tx_inv H1.
  apply mul_u64_Ok in Hlift as [-> _].
  apply bind_Ok in H as (? & ? & H1 & H). tx_inv H1.
  apply add_u64_Ok in Hlift as [-> Hexp].
  apply bind_Ok in H as (? & ? & H1 & H). tx_inv H1.
  apply utf8_Ok in Hlift as [-> _].
  apply bind_Ok in H as (? & ? & H1 & H). tx_inv H1.
  cbv zeta in H.
  apply bind_Ok in H as (t1 & ? & H1 & H).
  rewrite ensure_entry_eval in H1. injection H1 as <- <-.
  apply bind_Ok in H as (t2 & ? & H2 & H). tx_inv H2.
  rewrite push_back_entry in Hlift. injection Hlift as <-.
  tx_inv H. apply add_u64_Ok in Hlift as [-> _].
  unfold seconds. simpl. auto.
Qed.

Lemma mint_access_token_succeeds registry twin holder a d key lid issuer
    clock s :
  0 ≤ d →
  seconds clock + d * SECONDS_PER_DAY ≤ MAX_U64 →
  0 ≤ timestamp_ms clock →
  internal_check_utf8 twin = true →
  total_granted registry + 1 ≤ MAX_U64 →
  ∃ r, mint_access_token registry twin holder a d key lid issuer clock s = Ok r.
Proof.
  intros Hd Hexp Hclock Hu Hcnt. unfold mint_access_token.
  assert (0 ≤ seconds clock) by (unfold seconds; apply Z.div_pos; lia).
  unfold SECONDS_PER_DAY in *.
  erewrite bind_eval by reflexivity.
  rewrite mul_u64_eval by (unfold SECONDS_PER_DAY; lia).
  erewrite bind_eval by reflexivity.
  fold (seconds clock). rewrite add_u64_eval by done.
  erewrite bind_eval by reflexivity.
  rewrite utf8_eval by done.
  erewrite bind_eval by reflexivity.
  erewrite bind_eval by reflexivity.
  cbv zeta.
  erewrite bind_eval by apply ensure_entry_eval.
  rewrite push_back_entry.
  erewrite bind_eval by reflexivity.
  simpl. rewrite add_u64_eval by done.
  eexists. reflexivity.
Qed.

Lemma revoke_access_Ok cap token reason s token' s' :
  revoke_access cap token reason s = Ok (token', s') →
  sender (tx_ctx s) = original_seller token ∧
  token' = set_is_active false token.
Proof.
  intros H. unfold revoke_access in H. tx_inv H.
  apply Z.eqb_eq in Hcond. auto.
Qed.

(** No call on a token changes its expiry or its issuer, and none turns
    [is_active] back on. *)
Lemma step_token st c :
  expires_at (snd (step st c)) = expires_at (snd st) ∧
  original_seller (snd (step st c)) = original_seller (snd st) ∧
  (is_active (snd (step st c)) = true →
   is_active (snd st) = true ∧
   match c with Revoke _ _ _ => succeeds c st = false | _ => True end) ∧
  (is_active (snd st) = true →
   match c with Revoke _ _ _ => succeeds c st = false | _ => True end →
   is_active (snd (step st c)) = true).
Proof.
  destruct st as [registry token]. unfold step, succeeds.
  destruct c as [ctx cap reason | ctx recipient]; simpl.
  - destruct (revoke_access _ _ _ _) as [[t s]|e] eqn:H; simpl.
    + apply revoke_access_Ok in H as [_ ->]. simpl.
      repeat split; auto; discriminate.
    + auto.
  - destruct (transfer_access _ _ _ _) as [[r s]|e]; simpl; auto.
Qed.

Lemma run_check_access cs st now :
  check_access (snd (run cs st)) now = true ↔
  is_active (snd st) = true ∧ revoked cs st = false ∧
  seconds now < expires_at (snd st).
Proof.
  revert st. induction cs as [| c cs IH]; intros st.
  - simpl. rewrite check_access_true. tauto.
  - unfold run in *. simpl. rewrite IH, orb_false_iff.
    destruct (step_token st c) as (-> & _ & Hback & Hfwd).
    destruct c as [ctx cap reason | ctx recipient]; tauto.
Qed.

Lemma revoked_run_inactive cs st :
  revoked cs st = true → is_active (snd (run cs st)) = false.
Proof.
  intros Hrev. apply not_true_iff_false. intros Hact.
  assert (Hfar : ∀ cs st, is_active (snd (run cs st)) = true →
                          is_active (snd st) = true ∧ revoked cs st = false).
  { clear. induction cs as [| c cs IH]; intros st; [simpl; auto |].
    unfold run in *. simpl. intros H. apply IH in H as [H1 H2].
    destruct (step_token st c) as (_ & _ & Hback & _).
    destruct (Hback H1) as [Ha Hc]. rewrite H2, orb_false_r.
    split; [exact Ha |]. destruct c; auto. }
  apply Hfar in Hact as [_ Hno]. congruence.
Qed.

(** *** Claims on credentials *)

(** C3: for a credential minted at second [T] with [duration_days = d]
    under the Limited or Temporary access type, and whatever calls were
    made on it since, [check_access] answers [true] exactly when no
    [revoke_access] has gone through and the clock's second is below
    [T + d * 86400].  With [d = 30] it is [true] 29 days after [T] and
    [false] 31 days after; once a revocation has gone through it is [false]
    at every time. *)
Theorem C3_check_access_iff_unrevoked_and_unexpired registry twin holder a d
    key lid issuer clock s registry' token s' :
  a = marketplace.ACCESS_TYPE_LIMITED ∨ a = marketplace.ACCESS_TYPE_TEMPORARY →
  mint_access_token registry twin holder a d key lid issuer clock s
    = Ok (registry', token, s') →
  let T := seconds clock in
  (∀ cs now,
     check_access (snd (run cs (registry', token))) now = true ↔
     revoked cs (registry', token) = false ∧ seconds now < T + d * 86400) ∧
  (d = 30 →
   ∀ now,
     (seconds now = T + 29 * 86400 → check_access token now = true) ∧
     (seconds now = T + 31 * 86400 → check_access token now = false)) ∧
  (∀ cs, revoked cs (registry', token) = true →
         ∀ now, check_access (snd (run cs (registry', token))) now = false).
Proof.
  intros _ H T. apply mint_access_token_Ok in H as (Htok & _).
  assert (Hact : is_active token = true) by now rewrite Htok.
  assert (Hexp : expires_at token = T + d * 86400) by now rewrite Htok.
  assert (Hiff : ∀ cs now,
     check_access (snd (run cs (registry', token))) now = true ↔
     revoked cs (registry', token) = false ∧ seconds now < T + d * 86400).
  { intros cs now. rewrite run_check_access. simpl. rewrite Hexp. tauto. }
  split; [exact Hiff |]. split.
  - intros -> now. specialize (Hiff [] now). simpl in Hiff. split; intros Hnow.
    + apply Hiff. split; [reflexivity | lia].
    + apply not_true_iff_false. rewrite Hiff. lia.
  - intros cs Hrev now. apply not_true_iff_false. rewrite Hiff. intros [Hno _].
    congruence.
Qed.

Lemma C3_check_access_iff_unrevoked_and_unexpired_witness :
  let token := granted marketplace.ACCESS_TYPE_TEMPORARY 30 in
  let T := seconds (at_seconds 1000) in
  (∀ cs now,
     check_access (snd (run cs (indexed, token))) now = true ↔
     revoked cs (indexed, token) = false ∧ seconds now < T + 30 * 86400) ∧
  (30 = 30 →
   ∀ now,
     (seconds now = T + 29 * 86400 → check_access token now = true) ∧
     (seconds now = T + 31 * 86400 → check_access token now = false)) ∧
  (∀ cs, revoked cs (indexed, token) = true →
         ∀ now, check_access (snd (run cs (indexed, token))) now = false).
Proof.
  apply (C3_check_access_iff_unrevoked_and_unexpired published "twin-1" 201
           marketplace.ACCESS_TYPE_TEMPORARY 30 "k3y" (2, 0) 200
           (at_seconds 1000) (begin_tx mint_ctx) indexed
           (granted marketplace.ACCESS_TYPE_TEMPORARY 30)
           {| tx_ctx := {| sender := 200; tx_hash := 5; epoch := 1;
                           ids_created := 1 |};
              tx_effects :=
                [AccessGranted (5, 0) "twin-1" 201
                   marketplace.ACCESS_TYPE_TEMPORARY 2593000 1000] |});
    [right; reflexivity | vm_compute; reflexivity].
Defined.

(** The scenario of the claim, evaluated: 30 days granted at second 1000;
    valid after 29 days, not after 31, and never once the issuer revoked. *)
Example thirty_days :
  let token := granted marketplace.ACCESS_TYPE_TEMPORARY 30 in
  check_access token (at_seconds (1000 + 29 * 86400)) = true ∧
  check_access token (at_seconds (1000 + 31 * 86400)) = false ∧
  revoke_access admin token "refund" (begin_tx issuer_ctx)
    = Ok (set_is_active false token,
          {| tx_ctx := issuer_ctx;
             tx_effects := [AccessRevoked (5, 0) "twin-1" 201 "refund" 2] |}) ∧
  check_access (set_is_active false token) (at_seconds 1000) = false.
Proof. vm_compute. auto. Qed.

(** C4, as the claim words it, fails: a credential minted with the Full
    access type gets the expiry [now + duration_days * 86400] like any
    other.  Minted at second 1000 with [duration_days = 0] it is rejected
    from the first second on; minted with 30 days it is rejected 31 days
    later, though nobody revoked it. *)
Lemma C4_full_access_token_expires :
  mint_access_token published "twin-1" 201 marketplace.ACCESS_TYPE_FULL 0
    "k3y" (2, 0) 200 (at_seconds 1000) (begin_tx mint_ctx)
  = Ok (indexed, granted marketplace.ACCESS_TYPE_FULL 0,
        {| tx_ctx := {| sender := 200; tx_hash := 5; epoch := 1;
                        ids_created := 1 |};
           tx_effects :=
             [AccessGranted (5, 0) "twin-1" 201 marketplace.ACCESS_TYPE_FULL
                1000 1000] |}) ∧
  is_active (granted marketplace.ACCESS_TYPE_FULL 0) = true ∧
  check_access (granted marketplace.ACCESS_TYPE_FULL 0) (at_seconds 1000)
    = false ∧
  check_access (granted marketplace.ACCESS_TYPE_FULL 0) (at_seconds 1001)
    = false ∧
  is_active (granted marketplace.ACCESS_TYPE_FULL 30) = true ∧
  check_access (granted marketplace.ACCESS_TYPE_FULL 30)
    (at_seconds (1000 + 31 * 86400)) = false.
Proof. vm_compute. auto 10. Qed.

(** C4 (amended): [mint_access_token] called with the Full access type
    gives an active credential whose [expires_at] is the minting second
    plus [duration_days * 86400], with no value standing for "never";
    while the credential is not revoked, [check_access] answers [true]
    exactly at the times whose second is below that expiry. *)
Theorem C4_full_access_expiry_from_duration registry twin holder a d key lid
    issuer clock s registry' token s' :
  a = marketplace.ACCESS_TYPE_FULL →
  mint_access_token registry twin holder a d key lid issuer clock s
    = Ok (registry', token, s') →
  access_type token = marketplace.ACCESS_TYPE_FULL ∧
  is_active token = true ∧
  granted_at token = seconds clock ∧
  expires_at token = seconds clock + d * SECONDS_PER_DAY ∧
  ∀ cs now,
    check_access (snd (run cs (registry', token))) now = true ↔
    revoked cs (registry', token) = false ∧
    seconds now < seconds clock + d * SECONDS_PER_DAY.
Proof.
  intros -> H. apply mint_access_token_Ok in H as (-> & _).
  do 4 (split; [reflexivity |]).
  intros cs now. rewrite run_check_access. simpl. tauto.
Qed.

Lemma C4_full_access_expiry_from_duration_witness :
  let token := granted marketplace.ACCESS_TYPE_FULL 30 in
  access_type token = marketplace.ACCESS_TYPE_FULL ∧
  is_active token = true ∧
  granted_at token = seconds (at_seconds 1000) ∧
  expires_at token = seconds (at_seconds 1000) + 30 * SECONDS_PER_DAY ∧
  ∀ cs now,
    check_access (snd (run cs (indexed, token))) now = true ↔
    revoked cs (indexed, token) = false ∧
    seconds now < seconds (at_seconds 1000) + 30 * SECONDS_PER_DAY.
Proof.
  apply (C4_full_access_expiry_from_duration published "twin-1" 201
           marketplace.ACCESS_TYPE_FULL 30 "k3y" (2, 0) 200
           (at_seconds 1000) (begin_tx mint_ctx) indexed
           (granted marketplace.ACCESS_TYPE_FULL 30)
           {| tx_ctx := {| sender := 200; tx_hash := 5; epoch := 1;
                           ids_created := 1 |};
              tx_effects :=
                [AccessGranted (5, 0) "twin-1" 201
                   marketplace.ACCESS_TYPE_FULL 2593000 1000] |});
    [reflexivity | vm_compute; reflexivity].
Defined.

(** [vector::index_of] finds the first place of an element, if any. *)
Lemma index_of_spec v e :
  match index_of v e with
  | (true, i) =>
    v !! i = Some e ∧ ∀ j, (j < i)%nat → v !! j ≠ Some e
  | (false, _) => e ∉ v
  end.
Proof.
  induction v as [| x v IH]; simpl.
  - apply not_elem_of_nil.
  - case_bool_decide as Hx.
    + subst x. split; [reflexivity | intros j Hj; lia].
    + destruct (index_of v e) as [[|] i].
      * destruct IH as [Hi Hmin]. split; [exact Hi |].
        intros [| j] Hj; simpl; [congruence | apply Hmin; lia].
      * rewrite elem_of_cons. intros [-> | Hin]; [congruence | contradiction].
Qed.

Lemma unindex_eval {E} (t : gmap address (list ID)) k e (s : TxState E) :
  ∃ t1,
    (if table_contains t k
     then
       sender_tokens ← lift (table_borrow t k);
       let '(exists_, index) := index_of sender_tokens e in
       if exists_
       then
         '(_, sender_tokens) ← lift (vector_remove sender_tokens index);
         mret (<[k := sender_tokens]> t)
       else mret t
     else mret t) s = Ok (t1, s) ∧
    unindexed e (t !! k) (t1 !! k) ∧
    ∀ k', k' ≠ k → t1 !! k' = t !! k'.
Proof.
  unfold unindexed.
  destruct (table_contains t k) eqn:Hc.
  - apply table_contains_true in Hc as [l Hl].
    unfold table_borrow. rewrite Hl.
    erewrite bind_eval by reflexivity.
    pose proof (index_of_spec l e) as Hspec.
    destruct (index_of l e) as [[|] i].
    + destruct Hspec as [Hi Hmin].
      unfold vector_remove. rewrite Hi.
      exists (<[k := delete i l]> t). split; [reflexivity |].
      split.
      * exists (delete i l). rewrite lookup_insert_eq. eauto 10.
      * intros k' Hne. now apply lookup_insert_ne.
    + exists t. split; [reflexivity |]. split; [| done].
      exists l. eauto.
  - apply table_contains_false in Hc. rewrite Hc.
    exists t. split; [reflexivity |]. auto.
Qed.

(** C8, as the claim words it, fails: [transfer_access] never compares the
    sender with the holder the ledger records.  The token below is recorded
    under 201 both in its [owner] field and in the index, and 202 has no
    entry in the index at all; 202 can still come to hold the object
    ([AccessToken] has [store], so 201 may pass it on by a plain transfer,
    and the public [mint_access_token] returns the token to its caller
    whatever [owner] it was given).  The transfer sent by 202 goes through:
    the token goes to 203 and its id is now indexed under 201 and 203. *)
Lemma C8_transfer_by_other_than_owner_succeeds :
  let token := granted marketplace.ACCESS_TYPE_LIMITED 30 in
  owner token = 201 ∧
  active_accesses indexed !! 201 = Some [id token] ∧
  active_accesses indexed !! sender second_holder_ctx = None ∧
  sender second_holder_ctx ≠ owner token ∧
  ∃ registry' s',
    transfer_access indexed token 203 (begin_tx second_holder_ctx)
      = Ok (registry', s') ∧
    last (tx_effects s') = Some (public_transfer token 203) ∧
    active_accesses registry' = {[ 201 := [id token]; 203 := [id token] ]}.
Proof.
  split; [reflexivity |]. split; [reflexivity |]. split; [reflexivity |].
  split; [discriminate |].
  eexists _, _. split; [vm_compute; reflexivity |].
  split; [reflexivity |]. vm_compute. reflexivity.
Qed.

(** C8 (amended): [transfer_access] never aborts, whoever sends it.  It
    emits [AccessTransferred] and hands the recipient the token with every
    field but the recorded [owner] as it was: [expires_at],
    [original_seller] and [is_active] among them.  In the index it takes
    the first occurrence of the token's id out of the sender's vector, if
    the sender has one, and then puts the id at the end of the recipient's
    vector, which starts empty if the recipient had none; the other
    entries, the counter of grants and the registry's id stay as they
    were. *)
Theorem C8_transfer_access_reindexes registry token recipient s :
  let from := sender (tx_ctx s) in
  let index := active_accesses registry in
  ∃ registry' s' token' unindexed_from,
    transfer_access registry token recipient s = Ok (registry', s') ∧
    tx_effects s' =
      tx_effects s ++
        [AccessTransferred (id token) (twin_id token) from recipient
           (epoch (tx_ctx s));
         public_transfer token' recipient] ∧
    (id token' = id token ∧
     twin_id token' = twin_id token ∧
     access_type token' = access_type token ∧
     granted_at token' = granted_at token ∧
     expires_at token' = expires_at token ∧
     encrypted_key token' = encrypted_key token ∧
     purchase_listing_id token' = purchase_listing_id token ∧
     is_active token' = is_active token ∧
     original_seller token' = original_seller token) ∧
    unindexed (id token) (index !! from) unindexed_from ∧
    (from ≠ recipient →
     active_accesses registry' !! from = unindexed_from ∧
     active_accesses registry' !! recipient
       = Some (default [] (index !! recipient) ++ [id token])) ∧
    (from = recipient →
     active_accesses registry' !! recipient
       = Some (default [] unindexed_from ++ [id token])) ∧
    (∀ k, k ≠ from → k ≠ recipient →
          active_accesses registry' !! k = index !! k) ∧
    total_granted registry' = total_granted registry ∧
    registry_id registry' = registry_id registry.
Proof.
  intros from index. subst from index.
  unfold transfer_access.
  erewrite bind_eval by reflexivity. cbv zeta.
  destruct (unindex_eval (active_accesses registry) (sender (tx_ctx s))
              (id token) s) as (t1 & H1 & Hun & Hother).
  erewrite bind_eval by exact H1.
  erewrite bind_eval by apply ensure_entry_eval.
  rewrite push_back_entry.
  erewrite bind_eval by reflexivity.
  eexists _, _, token, (t1 !! sender (tx_ctx s)).
  split; [reflexivity |]. simpl.
  split; [now rewrite <- app_assoc |].
  split; [repeat split |]. split; [exact Hun |].
  split; [| split; [| split; [| split; reflexivity]]].
  - intros Hne. split.
    + now rewrite lookup_insert_ne by congruence.
    + rewrite lookup_insert_eq, Hother by congruence. reflexivity.
  - intros <-. now rewrite lookup_insert_eq.
  - intros k Hk Hr. rewrite lookup_insert_ne by congruence. now apply Hother.
Qed.

Lemma C8_transfer_access_reindexes_witness :
  let token := granted marketplace.ACCESS_TYPE_LIMITED 30 in
  let s := begin_tx (E := Effect) holder_ctx in
  let from := sender (tx_ctx s) in
  let index := active_accesses indexed in
  ∃ registry' s' token' unindexed_from,
    transfer_access indexed token 202 s = Ok (registry', s') ∧
    tx_effects s' =
      tx_effects s ++
        [AccessTransferred (id token) (twin_id token) from 202
           (epoch (tx_ctx s));
         public_transfer token' 202] ∧
    (id token' = id token ∧
     twin_id token' = twin_id token ∧
     access_type token' = access_type token ∧
     granted_at token' = granted_at token ∧
     expires_at token' = expires_at token ∧
     encrypted_key token' = encrypted_key token ∧
     purchase_listing_id token' = purchase_listing_id token ∧
     is_active token' = is_active token ∧
     original_seller token' = original_seller token) ∧
    unindexed (id token) (index !! from) unindexed_from ∧
    (from ≠ 202 →
     active_accesses registry' !! from = unindexed_from ∧
     active_accesses registry' !! 202
       = Some (default [] (index !! 202) ++ [id token])) ∧
    (from = 202 →
     active_accesses registry' !! 202
       = Some (default [] unindexed_from ++ [id token])) ∧
    (∀ k, k ≠ from → k ≠ 202 →
          active_accesses registry' !! k = index !! k) ∧
    total_granted registry' = total_granted indexed ∧
    registry_id registry' = registry_id indexed.
Proof.
  apply (C8_transfer_access_reindexes indexed
           (granted marketplace.ACCESS_TYPE_LIMITED 30) 202
           (begin_tx holder_ctx)).
Defined.

(** The holder 201 passes the granted token on to 202: the id leaves 201's
    vector, which stays in the index as an empty vector, and is the one
    element of 202's. *)
Example holder_passes_token_on :
  let token := granted marketplace.ACCESS_TYPE_LIMITED 30 in
  transfer_access indexed token 202 (begin_tx holder_ctx)
  = Ok ({| registry_id := (0, 0); total_granted := 1;
           active_accesses := {[ 201 := []; 202 := [id token] ]} |},
        {| tx_ctx := holder_ctx;
           tx_effects :=
             [AccessTransferred (5, 0) "twin-1" 201 202 2;
              public_transfer token 202] |}).
Proof. vm_compute. reflexivity. Qed.

End access_token_proofs.

(** ** The revenue ledger *)
Module revenue_proofs.
Import revenue_distribution pool_scenario.

Lemma withdraw_earnings_no_entry pool s :
  balances pool !! sender (tx_ctx s) = None →
  withdraw_earnings pool s = Err (Assert ERROR_NO_EARNINGS).
Proof.
  intros Hnone. unfold withdraw_earnings.
  erewrite bind_eval by reflexivity.
  apply table_contains_false in Hnone. now rewrite Hnone.
Qed.

Lemma withdraw_earnings_zero pool s b :
  balances pool !! sender (tx_ctx s) = Some b →
  b ≤ 0 →
  withdraw_earnings pool s = Err (Assert ERROR_INSUFFICIENT_BALANCE).
Proof.
  intros Hb Hle. unfold withdraw_earnings.
  erewrite bind_eval by reflexivity.
  rewrite (proj2 (table_contains_true _ _)) by eauto.
  erewrite bind_eval by reflexivity.
  unfold table_borrow. rewrite Hb.
  erewrite bind_eval by reflexivity.
  cbv zeta. now destruct (Z.ltb_spec 0 b); [lia |].
Qed.

Lemma withdraw_earnings_positive pool s b :
  balances pool !! sender (tx_ctx s) = Some b →
  0 < b →
  withdraw_earnings pool s
  = Ok (set_balances (<[sender (tx_ctx s) := 0]> (balances pool)) pool,
        {| tx_ctx :=
             {| sender := sender (tx_ctx s); tx_hash := tx_hash (tx_ctx s);
                epoch := epoch (tx_ctx s);
                ids_created := ids_created (tx_ctx s) + 1 |};
           tx_effects :=
             tx_effects s ++
               [EarningsWithdrawn (sender (tx_ctx s)) b (epoch (tx_ctx s));
                public_transfer
                  {| coin_id := (tx_hash (tx_ctx s), ids_created (tx_ctx s));
                     coin_value := b |}
                  (sender (tx_ctx s))] |}).
Proof.
  intros Hb Hpos. unfold withdraw_earnings.
  erewrite bind_eval by reflexivity.
  rewrite (proj2 (table_contains_true _ _)) by eauto.
  erewrite bind_eval by reflexivity.
  unfold table_borrow. rewrite Hb.
  erewrite bind_eval by reflexivity.
  cbv zeta. destruct (Z.ltb_spec 0 b); [| lia].
  erewrite bind_eval by reflexivity.
  unfold balance_split. rewrite Z.ltb_irrefl, Z.sub_diag.
  erewrite bind_eval by reflexivity.
  cbv [mbind Tx_bind object_new tx_epoch effect mret Tx_ret]. simpl.
  now rewrite <- app_assoc.
Qed.

(** C6, as the claim words it, fails: after seller 101 has withdrawn the 95
    credited by a sale, the entry stays in the table with balance zero, and
    a second withdrawal aborts with [ERROR_INSUFFICIENT_BALANCE] (code 0),
    not with [ERROR_NO_EARNINGS] (code 1). *)
Lemma C6_second_withdraw_aborts_with_insufficient_balance :
  record_sale published 101 {| coin_id := (3, 1); coin_value := 95 |}
    {| coin_id := (3, 0); coin_value := 5 |}
    (begin_tx {| sender := 102; tx_hash := 3; epoch := 4; ids_created := 2 |})
  = Ok (credited,
        {| tx_ctx := {| sender := 102; tx_hash := 3; epoch := 4;
                        ids_created := 2 |};
           tx_effects := [SaleRecorded 101 95 5 4] |}) ∧
  withdraw_earnings credited (begin_tx seller_ctx)
  = Ok (emptied,
        {| tx_ctx := {| sender := 101; tx_hash := 11; epoch := 4;
                        ids_created := 1 |};
           tx_effects :=
             [EarningsWithdrawn 101 95 4;
              public_transfer {| coin_id := (11, 0); coin_value := 95 |} 101]
        |}) ∧
  withdraw_earnings emptied (begin_tx seller_ctx)
  = Err (Assert ERROR_INSUFFICIENT_BALANCE) ∧
  withdraw_earnings emptied (begin_tx seller_ctx)
  ≠ Err (Assert ERROR_NO_EARNINGS).
Proof.
  split; [vm_compute; reflexivity |]. split; [vm_compute; reflexivity |].
  split; [reflexivity | discriminate].
Qed.

(** C6 (amended): [withdraw_earnings] aborts with [ERROR_NO_EARNINGS] when
    the sender has no entry in the balance table, and with
    [ERROR_INSUFFICIENT_BALANCE] when the entry is there with balance zero.
    With a positive balance [b] it goes through, leaves the entry at zero
    and sends the sender one coin worth [b]; a withdrawal by the same
    sender right after it aborts with [ERROR_INSUFFICIENT_BALANCE]. *)
Theorem C6_withdraw_earnings_outcomes pool s :
  let user := sender (tx_ctx s) in
  match balances pool !! user with
  | None => withdraw_earnings pool s = Err (Assert ERROR_NO_EARNINGS)
  | Some b =>
    if 0 <? b
    then
      ∃ pool' s' id,
        withdraw_earnings pool s = Ok (pool', s') ∧
        balances pool' !! user = Some 0 ∧
        get_balance pool' user = 0 ∧
        (∀ k, k ≠ user → balances pool' !! k = balances pool !! k) ∧
        total_platform_fees pool' = total_platform_fees pool ∧
        last (tx_effects s') =
          Some (public_transfer {| coin_id := id; coin_value := b |} user) ∧
        ∀ s2, sender (tx_ctx s2) = user →
              withdraw_earnings pool' s2
              = Err (Assert ERROR_INSUFFICIENT_BALANCE)
    else withdraw_earnings pool s = Err (Assert ERROR_INSUFFICIENT_BALANCE)
  end.
Proof.
  intros user. subst user.
  destruct (balances pool !! sender (tx_ctx s)) as [b|] eqn:Hb.
  - destruct (Z.ltb_spec 0 b) as [Hpos | Hle].
    + eexists _, _, _. split; [apply withdraw_earnings_positive; [exact Hb | exact Hpos] |].
      simpl. split; [apply lookup_insert_eq |]. split.
      { unfold get_balance. simpl.
        rewrite (proj2 (table_contains_true _ _))
          by (rewrite lookup_insert_eq; eauto).
        simpl. now rewrite lookup_insert_eq. }
      split; [intros k Hk; now apply lookup_insert_ne |].
      split; [reflexivity |]. split.
      { now rewrite last_app. }
      intros s2 Hs2. apply (withdraw_earnings_zero _ _ 0); [| lia].
      simpl. rewrite Hs2. apply lookup_insert_eq.
    + now apply (withdraw_earnings_zero _ _ b).
  - now apply withdraw_earnings_no_entry.
Qed.

Lemma C6_withdraw_earnings_outcomes_witness :
  ∃ pool' s' id,
    withdraw_earnings credited (begin_tx seller_ctx) = Ok (pool', s') ∧
    balances pool' !! 101 = Some 0 ∧
    get_balance pool' 101 = 0 ∧
    (∀ k, k ≠ 101 → balances pool' !! k = balances credited !! k) ∧
    total_platform_fees pool' = total_platform_fees credited ∧
    last (tx_effects s') =
      Some (public_transfer {| coin_id := id; coin_value := 95 |} 101) ∧
    ∀ s2, sender (tx_ctx s2) = 101 →
          withdraw_earnings pool' s2 = Err (Assert ERROR_INSUFFICIENT_BALANCE).
Proof.
  apply (C6_withdraw_earnings_outcomes credited (begin_tx seller_ctx)).
Defined.

(** Somebody who never sold anything has no entry and gets
    [ERROR_NO_EARNINGS]. *)
Example stranger_has_no_earnings :
  withdraw_earnings credited (begin_tx stranger_ctx)
  = Err (Assert ERROR_NO_EARNINGS).
Proof. reflexivity. Qed.

End revenue_proofs.

(** ** The asset registry *)
Module ai_twin_nft_proofs.
Import ai_twin_nft nft_scenario.

(** C7, as the claim words it, fails: [transfer_twin] checks neither the
    sender nor the presence of the twin.  The registry records 101 as the
    owner of "twin-1"; a transfer sent by 102 goes through and records the
    recipient 103.  On a registry that does not know "twin-1" the transfer
    goes through as well and adds the entry. *)
Lemma C7_transfer_twin_without_owner_or_entry :
  get_twin_owner minted "twin-1" = Ok 101 ∧
  sender other_ctx ≠ 101 ∧
  (∃ registry' s',
     transfer_twin minted scenario.twin_nft 103 (begin_tx other_ctx)
       = Ok (registry', s') ∧
     get_twin_owner registry' "twin-1" = Ok 103) ∧
  twin_exists empty "twin-1" = false ∧
  (∃ registry' s',
     transfer_twin empty scenario.twin_nft 103 (begin_tx other_ctx)
       = Ok (registry', s') ∧
     get_twin_owner registry' "twin-1" = Ok 103).
Proof.
  split; [reflexivity |]. split; [discriminate |].
  split; [eexists _, _; split; [vm_compute; reflexivity | reflexivity] |].
  split; [reflexivity |].
  eexists _, _; split; [vm_compute; reflexivity | reflexivity].
Qed.

(** C7 (amended): [transfer_twin] never aborts: for every sender, whether
    or not the registry knows the twin and whoever it records as owner, it
    sets the registry's owner of the NFT's [twin_id] to the recipient,
    leaves the other twins alone and hands the NFT to the recipient. *)
Theorem C7_transfer_twin_records_recipient registry nft recipient s :
  ∃ registry' s',
    transfer_twin registry nft recipient s = Ok (registry', s') ∧
    twins registry' = <[twin_id nft := recipient]> (twins registry) ∧
    get_twin_owner registry' (twin_id nft) = Ok recipient ∧
    (∀ k, k ≠ twin_id nft → twins registry' !! k = twins registry !! k) ∧
    total_minted registry' = total_minted registry ∧
    last (tx_effects s') = Some (public_transfer nft recipient).
Proof.
  unfold transfer_twin.
  erewrite bind_eval by reflexivity. cbv zeta.
  erewrite bind_eval by apply remove_if_contains.
  unfold table_add. rewrite lookup_delete_eq, insert_delete_eq.
  erewrite bind_eval by reflexivity.
  eexists _, _. split; [reflexivity |]. simpl.
  split; [reflexivity |]. split.
  { unfold get_twin_owner, table_borrow. simpl.
    rewrite (proj2 (table_contains_true _ _))
      by (rewrite lookup_insert_eq; eauto).
    now rewrite lookup_insert_eq. }
  split; [intros k Hk; now apply lookup_insert_ne |].
  split; [reflexivity |].
  now rewrite last_app.
Qed.

Lemma C7_transfer_twin_records_recipient_witness :
  ∃ registry' s',
    transfer_twin minted scenario.twin_nft 103 (begin_tx other_ctx)
      = Ok (registry', s') ∧
    twins registry' = <[twin_id scenario.twin_nft := 103]> (twins minted) ∧
    get_twin_owner registry' (twin_id scenario.twin_nft) = Ok 103 ∧
    (∀ k, k ≠ twin_id scenario.twin_nft →
          twins registry' !! k = twins minted !! k) ∧
    total_minted registry' = total_minted minted ∧
    last (tx_effects s') = Some (public_transfer scenario.twin_nft 103).
Proof.
  apply (C7_transfer_twin_records_recipient minted scenario.twin_nft 103
           (begin_tx other_ctx)).
Defined.

End ai_twin_nft_proofs.

(** ** More on the listing ledger *)
Module marketplace_extra.
Import marketplace listing_tx scenario marketplace_proofs.

(** What one call can change in the listing it borrows. *)
Lemma step_listing st c :
  snd (step st c) = snd st ∨
  (∃ ctx p t, c = Update ctx p t ∧ sender ctx = seller (snd st) ∧
              is_active (snd st) = true ∧
              snd (step st c) = set_terms t (set_price p (snd st))) ∨
  (settles c = true ∧ is_active (snd st) = true ∧
   snd (step st c) = set_is_active false (snd st)).
Proof.
  destruct (run_call c st) as [st'|e] eqn:Hrun;
    [| left; unfold step; now rewrite Hrun].
  assert (Hstep : step st c = st') by (unfold step; now rewrite Hrun).
  rewrite Hstep. destruct (settles c) eqn:Hs.
  - right. right. destruct (settles_Ok _ _ _ Hs Hrun). auto.
  - destruct st as [registry listing].
    destruct c as [ctx nft p a d t | ctx p t | | |]; try discriminate;
      simpl in *.
    + left. destruct (list_ai_twin _ _ _ _ _ _ _) as [[r s]|e];
        [| discriminate]. now injection Hrun as <-.
    + right. left.
      destruct (update_listing _ _ _ _) as [[l s]|e] eqn:H; [| discriminate].
      injection Hrun as <-.
      apply update_listing_Ok in H as (Hs' & Hact & ->). eauto 10.
Qed.

(** X1: whatever calls are made on a listing, its id, twin id, NFT id,
    seller, access type, access duration and creation time stay what they
    were when it was listed. *)
Theorem X1_listing_identity_is_immutable cs st :
  let before := snd st in
  let after := snd (run cs st) in
  id after = id before ∧
  twin_id after = twin_id before ∧
  nft_id after = nft_id before ∧
  seller after = seller before ∧
  access_type after = access_type before ∧
  access_duration_days after = access_duration_days before ∧
  created_at after = created_at before.
Proof.
  revert st. induction cs as [| c cs IH]; intros st; [simpl; tauto |].
  unfold run in *. simpl.
  specialize (IH (step st c)). cbv zeta in IH.
  destruct (step_listing st c) as [H | [(ctx & p & t & _ & _ & _ & H) | (_ & _ & H)]];
    rewrite H in IH; exact IH.
Qed.

(** X2: the price or the terms of a listing change only through an
    [update_listing] sent by the seller while the listing is active, and
    then to the values the seller gave. *)
Theorem X2_price_changes_only_by_seller_update st c :
  price (snd (step st c)) ≠ price (snd st) ∨
  terms (snd (step st c)) ≠ terms (snd st) →
  ∃ ctx new_price new_terms,
    c = Update ctx new_price new_terms ∧
    sender ctx = seller (snd st) ∧
    is_active (snd st) = true ∧
    price (snd (step st c)) = new_price ∧
    terms (snd (step st c)) = new_terms ∧
    is_active (snd (step st c)) = true.
Proof.
  intros Hchg.
  destruct (step_listing st c) as [H | [(ctx & p & t & -> & Hs & Hact & H) | (_ & _ & H)]].
  - rewrite H in Hchg. tauto.
  - exists ctx, p, t. rewrite H. simpl. auto 10.
  - rewrite H in Hchg. simpl in Hchg. tauto.
Qed.

Lemma X2_price_changes_only_by_seller_update_witness :
  ∃ ctx new_price new_terms,
    Update seller_ctx 50 "cheaper" = Update ctx new_price new_terms ∧
    sender ctx = seller (snd (listed, offer)) ∧
    is_active (snd (listed, offer)) = true ∧
    price (snd (step (listed, offer) (Update seller_ctx 50 "cheaper")))
      = new_price ∧
    terms (snd (step (listed, offer) (Update seller_ctx 50 "cheaper")))
      = new_terms ∧
    is_active (snd (step (listed, offer) (Update seller_ctx 50 "cheaper")))
      = true.
Proof.
  apply (X2_price_changes_only_by_seller_update (listed, offer)
           (Update seller_ctx 50 "cheaper")).
  left. vm_compute. discriminate.
Defined.

(** What [complete_purchase] does once [purchase_access] has returned. *)
Lemma complete_purchase_effects registry listing nft payment s
    registry' listing' s' :
  complete_purchase registry listing nft payment s
    = Ok (registry', listing', s') →
  ∃ nft' fee_coin seller_coin change s1,
    purchase_access registry listing nft payment s
      = Ok (registry', listing', (nft', fee_coin, seller_coin, change), s1) ∧
    tx_effects s' =
      tx_effects s1 ++
        [transfer_nft nft' (sender (tx_ctx s));
         transfer_coin fee_coin (platform_fee_recipient registry');
         transfer_coin seller_coin (seller listing');
         if 0 <? coin_value change
         then transfer_coin change (sender (tx_ctx s))
         else destroy_zero change].
Proof.
  intros H. unfold complete_purchase in H.
  apply bind_Ok in H as (a & s0 & H0 & H). tx_inv H0.
  apply bind_Ok in H as ([[r l] [[[n f] sp] ch]] & s1 & H1 & H).
  tx_inv H.
  exists n, f, sp, ch, s1. split; [exact H1 |].
  destruct (0 <? coin_value ch); tx_inv H0; simpl;
    now rewrite <- !app_assoc.
Qed.

(** X3: a [complete_purchase] that goes through hands the NFT to the buyer,
    the fee coin to the registry's fee recipient, the seller's coin to the
    listing's seller, and what is left of the payment back to the buyer;
    the three coin values add up to the payment.  The change coin is
    destroyed instead of sent exactly when the payment equals the price. *)
Theorem X3_complete_purchase_distributes_payment registry listing nft payment s
    registry' listing' s' :
  complete_purchase registry listing nft payment s
    = Ok (registry', listing', s') →
  let buyer := sender (tx_ctx s) in
  let fee := price listing * platform_fee_percent registry / 100 in
  ∃ fee_coin seller_coin change,
    coin_value fee_coin = fee ∧
    coin_value seller_coin = price listing - fee ∧
    coin_value change = coin_value payment - price listing ∧
    coin_value fee_coin + coin_value seller_coin + coin_value change
      = coin_value payment ∧
    0 ≤ coin_value change ∧
    tx_effects s' =
      tx_effects s ++
        [PurchaseCompleted (id listing) (twin_id listing) buyer
           (seller listing) (price listing) fee (price listing - fee)
           (epoch (tx_ctx s));
         transfer_nft nft buyer;
         transfer_coin fee_coin (platform_fee_recipient registry);
         transfer_coin seller_coin (seller listing);
         if bool_decide (coin_value payment = price listing)
         then destroy_zero change
         else transfer_coin change buyer].
Proof.
  intros H buyer fee.
  apply complete_purchase_effects in H
    as (n & f & sp & ch & s1 & Hp & Heff).
  apply purchase_access_Ok in Hp. cbv zeta in Hp.
  destruct Hp as (_ & Hpay & _ & _ & Hf & Hsp & Hch & -> & -> & -> & He1).
  exists f, sp, ch. fold fee in Hf, Hsp, Hch, He1.
  rewrite Heff, He1, <- app_assoc. simpl.
  repeat split; try lia.
  do 5 f_equal.
  case_bool_decide as Heq; destruct (Z.ltb_spec 0 (coin_value ch));
    try reflexivity; lia.
Qed.

Lemma X3_complete_purchase_distributes_payment_witness :
  ∃ fee_coin seller_coin change,
    coin_value fee_coin = price offer * platform_fee_percent listed / 100 ∧
    coin_value seller_coin
      = price offer - price offer * platform_fee_percent listed / 100 ∧
    coin_value change = coin_value (coin 120) - price offer ∧
    coin_value fee_coin + coin_value seller_coin + coin_value change
      = coin_value (coin 120) ∧
    0 ≤ coin_value change ∧
    tx_effects
      {| tx_ctx := {| sender := 102; tx_hash := 3; epoch := 1;
                      ids_created := 2 |};
         tx_effects :=
           [PurchaseCompleted (2, 0) "twin-1" 102 101 100 5 95 1;
            transfer_nft twin_nft 102;
            transfer_coin {| coin_id := (3, 0); coin_value := 5 |} 100;
            transfer_coin {| coin_id := (3, 1); coin_value := 95 |} 101;
            transfer_coin {| coin_id := (9, 0); coin_value := 20 |} 102] |} =
      tx_effects (begin_tx (E := Effect) buyer_ctx) ++
        [PurchaseCompleted (id offer) (twin_id offer)
           (sender (tx_ctx (begin_tx (E := Effect) buyer_ctx)))
           (seller offer) (price offer)
           (price offer * platform_fee_percent listed / 100)
           (price offer - price offer * platform_fee_percent listed / 100)
           (epoch (tx_ctx (begin_tx (E := Effect) buyer_ctx)));
         transfer_nft twin_nft
           (sender (tx_ctx (begin_tx (E := Effect) buyer_ctx)));
         transfer_coin fee_coin (platform_fee_recipient listed);
         transfer_coin seller_coin (seller offer);
         if bool_decide (coin_value (coin 120) = price offer)
         then destroy_zero change
         else transfer_coin change
                (sender (tx_ctx (begin_tx (E := Effect) buyer_ctx)))].
Proof.
  apply (X3_complete_purchase_distributes_payment listed offer twin_nft
           (coin 120) (begin_tx buyer_ctx)
           (set_total_volume 100 (set_total_sales 1 listed))
           (set_is_active false offer)).
  vm_compute. reflexivity.
Defined.

(** X4: the fee is computed as [price * platform_fee_percent] in u64
    before dividing, so a listing whose product exceeds the u64 range can
    never be bought: a sufficient payment on the active listing aborts with
    the arithmetic error, and no payment at all makes [purchase_access] or
    [complete_purchase] go through. *)
Theorem X4_fee_product_overflow_blocks_purchase registry listing nft payment s :
  MAX_U64 < price listing * platform_fee_percent registry →
  (is_active listing = true → price listing ≤ coin_value payment →
   purchase_access registry listing nft payment s = Err ARITHMETIC_ERROR ∧
   complete_purchase registry listing nft payment s = Err ARITHMETIC_ERROR) ∧
  (∀ r, purchase_access registry listing nft payment s ≠ Ok r) ∧
  (∀ r, complete_purchase registry listing nft payment s ≠ Ok r).
Proof.
  intros Hov.
  assert (Hno : ∀ r, purchase_access registry listing nft payment s ≠ Ok r).
  { intros [[[r l] [[[n f] sp] ch]] s1] H.
    apply purchase_access_Ok in H. cbv zeta in H. lia. }
  split; [| split; [exact Hno |]].
  - intros Hact Hpay.
    assert (Herr : purchase_access registry listing nft payment s
                   = Err ARITHMETIC_ERROR).
    { unfold purchase_access.
      erewrite bind_eval by reflexivity.
      rewrite Hact. erewrite bind_eval by reflexivity. cbv zeta.
      destruct (Z.leb_spec (price listing) (coin_value payment)); [| lia].
      erewrite bind_eval by reflexivity.
      unfold mul_u64.
      destruct (Z.leb_spec (price listing * platform_fee_percent registry)
                  MAX_U64); [lia | reflexivity]. }
    split; [exact Herr | now apply complete_purchase_abort].
  - intros [[r l] s1] H.
    apply complete_purchase_Ok in H as (n & f & sp & ch & s2 & H).
    now apply Hno in H.
Qed.

Lemma X4_fee_product_overflow_blocks_purchase_witness :
  let dear := set_price MAX_U64 offer in
  (is_active dear = true → price dear ≤ coin_value (coin MAX_U64) →
   purchase_access listed dear twin_nft (coin MAX_U64) (begin_tx buyer_ctx)
     = Err ARITHMETIC_ERROR ∧
   complete_purchase listed dear twin_nft (coin MAX_U64) (begin_tx buyer_ctx)
     = Err ARITHMETIC_ERROR) ∧
  (∀ r, purchase_access listed dear twin_nft (coin MAX_U64)
          (begin_tx buyer_ctx) ≠ Ok r) ∧
  (∀ r, complete_purchase listed dear twin_nft (coin MAX_U64)
          (begin_tx buyer_ctx) ≠ Ok r).
Proof.
  apply (X4_fee_product_overflow_blocks_purchase listed
           (set_price MAX_U64 offer) twin_nft (coin MAX_U64)
           (begin_tx buyer_ctx)).
  ground.
Defined.

(** X5: nothing rejects a price of zero.  A purchase of an active
    zero-price listing goes through with any payment coin, whatever the fee
    percentage: the fee coin and the seller's coin are both worth zero and
    the whole payment comes back as change. *)
Theorem X5_zero_price_listing_is_free registry listing nft payment s :
  price listing = 0 →
  is_active listing = true →
  0 ≤ coin_value payment →
  total_sales registry + 1 ≤ MAX_U64 →
  total_volume registry ≤ MAX_U64 →
  ∃ registry' listing' fee_coin seller_coin change s',
    purchase_access registry listing nft payment s
      = Ok (registry', listing', (nft, fee_coin, seller_coin, change), s') ∧
    coin_value fee_coin = 0 ∧
    coin_value seller_coin = 0 ∧
    coin_value change = coin_value payment ∧
    is_active listing' = false ∧
    total_volume registry' = total_volume registry.
Proof.
  intros Hp Hact Hpay Hsales Hvol.
  assert (Hok : ∃ r, purchase_access registry listing nft payment s = Ok r).
  { unfold purchase_access.
    erewrite bind_eval by reflexivity.
    rewrite Hact. erewrite bind_eval by reflexivity. cbv zeta.
    rewrite Hp.
    destruct (Z.leb_spec 0 (coin_value payment)); [| lia].
    erewrite bind_eval by reflexivity.
    rewrite mul_u64_eval by (rewrite Z.mul_0_l; unfold MAX_U64; lia).
    erewrite bind_eval by reflexivity.
    erewrite bind_eval by reflexivity.
    rewrite Z.mul_0_l. change (0 / 100) with 0.
    rewrite sub_u64_eval by lia.
    erewrite bind_eval by reflexivity.
    destruct (coin_split_eval (E := Effect) payment 0 s)
      as (i0 & s0 & Hs0 & _); [lia |].
    erewrite bind_eval by exact Hs0.
    destruct (coin_split_eval (E := Effect)
                {| coin_id := coin_id payment;
                   coin_value := coin_value payment - 0 |} (0 - 0) s0)
      as (i1 & s1 & Hs1 & _); [simpl; lia |].
    erewrite bind_eval by exact Hs1.
    rewrite add_u64_eval by lia.
    erewrite bind_eval by reflexivity.
    simpl. rewrite Hp, add_u64_eval by lia.
    eexists. reflexivity. }
  destruct Hok as ([[[r l] [[[n f] sp] ch]] s1] & Hok).
  pose proof (purchase_access_Ok _ _ _ _ _ _ _ _ _ _ _ _ Hok) as H.
  cbv zeta in H. rewrite Hp, Z.mul_0_l in H. change (0 / 100) with 0 in H.
  destruct H as (_ & _ & _ & _ & Hf & Hsp & Hch & -> & -> & -> & _).
  exists (set_total_volume (total_volume registry + 0)
            (set_total_sales (total_sales registry + 1) registry)),
    (set_is_active false listing), f, sp, ch, s1.
  split; [exact Hok |]. simpl. repeat split; lia.
Qed.

Lemma X5_zero_price_listing_is_free_witness :
  let free := set_price 0 offer in
  ∃ registry' listing' fee_coin seller_coin change s',
    purchase_access listed free twin_nft (coin 7) (begin_tx buyer_ctx)
      = Ok (registry', listing', (twin_nft, fee_coin, seller_coin, change), s') ∧
    coin_value fee_coin = 0 ∧
    coin_value seller_coin = 0 ∧
    coin_value change = coin_value (coin 7) ∧
    is_active listing' = false ∧
    total_volume registry' = total_volume listed.
Proof.
  apply (X5_zero_price_listing_is_free listed (set_price 0 offer) twin_nft
           (coin 7) (begin_tx buyer_ctx)); ground.
Defined.

(** The five ways one call can change the registry and the listing. *)
Lemma step_cases st c :
  step st c = st ∨
  (∃ k, listings (fst st) !! k = None ∧
        step st c =
          (set_total_listings (total_listings (fst st) + 1)
             (set_listings (<[k := true]> (listings (fst st))) (fst st)),
           snd st)) ∨
  (∃ p t, is_active (snd st) = true ∧
          step st c = (fst st, set_terms t (set_price p (snd st)))) ∨
  (is_active (snd st) = true ∧
   step st c =
     (set_listings (delete (id (snd st)) (listings (fst st))) (fst st),
      set_is_active false (snd st))) ∨
  (is_active (snd st) = true ∧
   step st c =
     (set_total_volume (total_volume (fst st) + price (snd st))
        (set_total_sales (total_sales (fst st) + 1) (fst st)),
      set_is_active false (snd st))).
Proof.
  destruct st as [registry listing]. unfold step. simpl.
  assert (Hpurchase : ∀ nft pay s r l n f sp ch s1,
    purchase_access registry listing nft pay s = Ok (r, l, (n, f, sp, ch), s1) →
    is_active listing = true ∧
    (r, l) =
      (set_total_volume (total_volume registry + price listing)
         (set_total_sales (total_sales registry + 1) registry),
       set_is_active false listing)).
  { intros * H. apply purchase_access_Ok in H. cbv zeta in H.
    destruct H as (Hact & _ & _ & _ & _ & _ & _ & _ & -> & -> & _). auto. }
  destruct c as [ctx nft p a d t | ctx p t | ctx | ctx nft pay | ctx nft pay];
    simpl.
  - destruct (list_ai_twin _ _ _ _ _ _ _) as [[r s]|e] eqn:H; [| now left].
    right. left. apply list_ai_twin_Ok in H. cbv zeta in H.
    destruct H as (_ & Hfresh & -> & _). eauto.
  - destruct (update_listing _ _ _ _) as [[l s]|e] eqn:H; [| now left].
    right. right. left. apply update_listing_Ok in H as (_ & Hact & ->).
    eauto.
  - destruct (delist_ai_twin _ _ _) as [[[r l] s]|e] eqn:H; [| now left].
    right. right. right. left.
    apply delist_ai_twin_Ok in H as (_ & Hact & -> & ->). auto.
  - destruct (purchase_access _ _ _ _ _) as [[[[r l] [[[n f] sp] ch]] s]|e] eqn:H;
      [| now left].
    do 4 right. simpl. eapply Hpurchase, H.
  - destruct (complete_purchase _ _ _ _ _) as [[[r l] s]|e] eqn:H;
      [| now left].
    do 4 right. simpl.
    apply complete_purchase_Ok in H as (n & f & sp & ch & s1 & H).
    eapply Hpurchase, H.
Qed.

(** X6: the registry's counter of listings bounds the number of entries in
    its table of listings, and every call keeps it so: listing adds one to
    both, delisting only takes an entry out, and nothing else touches
    either. *)
Theorem X6_listing_table_within_counter cs st :
  Z.of_nat (size (listings (fst st))) ≤ total_listings (fst st) →
  Z.of_nat (size (listings (fst (run cs st))))
    ≤ total_listings (fst (run cs st)).
Proof.
  revert st. induction cs as [| c cs IH]; intros st Hinv; [exact Hinv |].
  unfold run in *. simpl. apply IH.
  destruct (step_cases st c)
    as [-> | [(k & Hk & ->) | [(p & t & _ & ->) | [[_ ->] | [_ ->]]]]];
    simpl; try exact Hinv.
  - rewrite map_size_insert_None by exact Hk. lia.
  - rewrite map_size_delete. destruct (listings (fst st) !! _); simpl; lia.
Qed.

Lemma X6_listing_table_within_counter_witness :
  Z.of_nat
    (size (listings
             (fst (run [Delist seller_ctx;
                        ListTwin seller_ctx twin_nft 10 1 0 "again"]
                     (listed, offer)))))
  ≤ total_listings
      (fst (run [Delist seller_ctx;
                 ListTwin seller_ctx twin_nft 10 1 0 "again"]
              (listed, offer))).
Proof.
  apply (X6_listing_table_within_counter
           [Delist seller_ctx; ListTwin seller_ctx twin_nft 10 1 0 "again"]
           (listed, offer)).
  ground.
Defined.

(** The fee percentage survives every call. *)
Lemma run_keeps_fee_percent cs st :
  platform_fee_percent (fst (run cs st)) = platform_fee_percent (fst st).
Proof.
  revert st. induction cs as [| c cs IH]; intros st; [reflexivity |].
  unfold run in *. simpl. rewrite IH.
  destruct (step_cases st c)
    as [-> | [(k & _ & ->) | [(p & t & _ & ->) | [[_ ->] | [_ ->]]]]];
    reflexivity.
Qed.

(** X7: no call changes the registry's fee percentage, fee recipient or
    id; the counters of listings and of sales never go down; and a sequence
    of calls on one listing raises the counter of sales by one at most, and
    only if the listing was active. *)
Theorem X7_registry_configuration_is_fixed cs st :
  let before := fst st in
  let after := fst (run cs st) in
  platform_fee_percent after = platform_fee_percent before ∧
  platform_fee_recipient after = platform_fee_recipient before ∧
  registry_id after = registry_id before ∧
  total_listings before ≤ total_listings after ∧
  total_sales before ≤ total_sales after ∧
  total_sales after
    ≤ total_sales before + (if is_active (snd st) then 1 else 0).
Proof.
  cbv zeta. revert st. induction cs as [| c cs IH]; intros st.
  { simpl. destruct (is_active (snd st)); repeat split; lia. }
  unfold run in *. simpl.
  specialize (IH (step st c)).
  destruct IH as (-> & -> & -> & Hl & Hs & Hs1).
  destruct (step_cases st c)
    as [H | [(k & Hk & H) | [(p & t & Hact & H) | [[Hact H] | [Hact H]]]]];
    rewrite H in *; simpl in *; try rewrite Hact in *;
    repeat split; lia.
Qed.

(** X8: the registry that [init] shares takes [PLATFORM_FEE_PERCENT], 5,
    as its fee, pays the fees to the publisher and starts empty; as no call
    changes the fee, every purchase settled through it, after whatever
    calls, charges [floor (price * 5 / 100)]. *)
Theorem X8_published_marketplace_charges_five_percent s :
  ∃ registry s',
    init s = Ok (tt, s') ∧
    last (tx_effects s') = Some (share_registry registry) ∧
    platform_fee_percent registry = 5 ∧
    platform_fee_recipient registry = sender (tx_ctx s) ∧
    total_listings registry = 0 ∧
    total_sales registry = 0 ∧
    total_volume registry = 0 ∧
    listings registry = ∅ ∧
    ∀ listing cs nft payment t r l n fee_coin seller_coin change t',
      purchase_access (fst (run cs (registry, listing)))
        (snd (run cs (registry, listing))) nft payment t
        = Ok (r, l, (n, fee_coin, seller_coin, change), t') →
      coin_value fee_coin
        = price (snd (run cs (registry, listing))) * 5 / 100.
Proof.
  eexists _, _. split.
  { unfold init. erewrite bind_eval by reflexivity.
    erewrite bind_eval by reflexivity. reflexivity. }
  simpl. split; [apply last_snoc |].
  do 6 (split; [reflexivity |]).
  intros listing cs nft payment t r l n f sp ch t' Hp.
  apply purchase_access_Ok in Hp. cbv zeta in Hp.
  destruct Hp as (_ & _ & _ & _ & -> & _).
  now rewrite run_keeps_fee_percent.
Qed.

Lemma X8_published_marketplace_charges_five_percent_witness :
  ∃ registry s',
    init (begin_tx seller_ctx) = Ok (tt, s') ∧
    last (tx_effects s') = Some (share_registry registry) ∧
    platform_fee_percent registry = 5 ∧
    platform_fee_recipient registry
      = sender (tx_ctx (begin_tx (E := Effect) seller_ctx)) ∧
    total_listings registry = 0 ∧
    total_sales registry = 0 ∧
    total_volume registry = 0 ∧
    listings registry = ∅ ∧
    ∀ listing cs nft payment t r l n fee_coin seller_coin change t',
      purchase_access (fst (run cs (registry, listing)))
        (snd (run cs (registry, listing))) nft payment t
        = Ok (r, l, (n, fee_coin, seller_coin, change), t') →
      coin_value fee_coin
        = price (snd (run cs (registry, listing))) * 5 / 100.
Proof.
  apply (X8_published_marketplace_charges_five_percent (begin_tx seller_ctx)).
Defined.

Lemma delist_ai_twin_succeeds registry listing s :
  sender (tx_ctx s) = seller listing →
  is_active listing = true →
  delist_ai_twin registry listing s
  = Ok (set_listings (delete (id listing) (listings registry)) registry,
        set_is_active false listing,
        {| tx_ctx := tx_ctx s;
           tx_effects :=
             tx_effects s ++
               [ListingDelisted (id listing) (twin_id listing)
                  (seller listing) (epoch (tx_ctx s))] |}).
Proof.
  intros Hs Hact. unfold delist_ai_twin.
  erewrite bind_eval by reflexivity.
  rewrite Hs, Z.eqb_refl. erewrite bind_eval by reflexivity.
  rewrite Hact. erewrite bind_eval by reflexivity.
  cbv zeta.
  erewrite bind_eval by apply remove_if_contains.
  reflexivity.
Qed.

(** X9: listing and then delisting brings the registry's table of listings
    back to what it was.  The listing that [list_ai_twin] shares can be
    delisted by the sender who listed it; the table then has exactly the
    entries it had before the listing, while the counter of listings keeps
    the increment. *)
Theorem X9_list_then_delist_restores_table registry nft p a d t s registry1 s1
    s2 :
  list_ai_twin registry nft p a d t s = Ok (registry1, s1) →
  sender (tx_ctx s2) = sender (tx_ctx s) →
  ∃ listing registry2 s2',
    last (tx_effects s1) = Some (share_listing listing) ∧
    listings registry1 !! id listing = Some true ∧
    delist_ai_twin registry1 listing s2
      = Ok (registry2, set_is_active false listing, s2') ∧
    listings registry2 = listings registry ∧
    total_listings registry2 = total_listings registry + 1.
Proof.
  intros H Hs. apply list_ai_twin_Ok in H. cbv zeta in H.
  destruct H as (_ & Hfresh & -> & Hlast).
  eexists _, _, _. split; [exact Hlast |].
  split; [apply lookup_insert_eq |].
  split; [now apply delist_ai_twin_succeeds |].
  simpl in *. split; [| reflexivity].
  now apply delete_insert_id.
Qed.

Lemma X9_list_then_delist_restores_table_witness :
  ∃ listing registry2 s2',
    last (tx_effects
            {| tx_ctx := {| sender := 101; tx_hash := 2; epoch := 1;
                            ids_created := 1 |};
               tx_effects :=
                 [ListingCreated (2, 0) "twin-1" 101 100 ACCESS_TYPE_FULL 1;
                  share_listing offer] |})
      = Some (share_listing listing) ∧
    listings listed !! id listing = Some true ∧
    delist_ai_twin listed listing (begin_tx seller_ctx)
      = Ok (registry2, set_is_active false listing, s2') ∧
    listings registry2 = listings published ∧
    total_listings registry2 = total_listings published + 1.
Proof.
  apply (X9_list_then_delist_restores_table published twin_nft 100
           ACCESS_TYPE_FULL 0 "personal use" (begin_tx seller_ctx) listed
           {| tx_ctx := {| sender := 101; tx_hash := 2; epoch := 1;
                           ids_created := 1 |};
              tx_effects :=
                [ListingCreated (2, 0) "twin-1" 101 100 ACCESS_TYPE_FULL 1;
                 share_listing offer] |}
           (begin_tx seller_ctx));
    [vm_compute; reflexivity | reflexivity].
Defined.

End marketplace_extra.

(** ** More on the access-credential ledger *)
Module access_token_extra.
Import access_token token_tx token_scenario access_token_proofs.

Lemma revoke_access_succeeds cap token reason s :
  sender (tx_ctx s) = original_seller token →
  internal_check_utf8 reason = true →
  revoke_access cap token reason s
  = Ok (set_is_active false token,
        {| tx_ctx := tx_ctx s;
           tx_effects :=
             tx_effects s ++
               [AccessRevoked (id token) (twin_id token) (owner token) reason
                  (epoch (tx_ctx s))] |}).
Proof.
  intros Hs Hu. unfold revoke_access.
  erewrite bind_eval by reflexivity.
  rewrite Hs, Z.eqb_refl. erewrite bind_eval by reflexivity. cbv zeta.
  rewrite utf8_eval by done. erewrite bind_eval by reflexivity.
  reflexivity.
Qed.

Lemma revoke_access_not_authorized cap token reason s :
  sender (tx_ctx s) ≠ original_seller token →
  revoke_access cap token reason s = Err (Assert ERROR_NOT_AUTHORIZED).
Proof.
  intros Hne. unfold revoke_access.
  erewrite bind_eval by reflexivity.
  now destruct (Z.eqb_spec (sender (tx_ctx s)) (original_seller token)).
Qed.

(** Over any calls a token keeps everything but its [is_active] flag. *)
Lemma run_token_frame cs st :
  set_is_active true (snd (run cs st)) = set_is_active true (snd st).
Proof.
  revert st. induction cs as [| c cs IH]; intros st; [reflexivity |].
  unfold run in *. simpl. rewrite IH.
  destruct st as [registry token]. unfold step.
  destruct c as [ctx cap reason | ctx recipient]; simpl.
  - destruct (revoke_access _ _ _ _) as [[t s]|e] eqn:H; [| reflexivity].
    now apply revoke_access_Ok in H as [_ ->].
  - now destruct (transfer_access _ _ _ _) as [[r s]|e].
Qed.

(** X10: only the original seller can revoke, whatever [AdminCap] is
    presented: any other sender gets [ERROR_NOT_AUTHORIZED].  For the
    original seller the revocation goes through and only turns
    [is_active] off; nothing guards against a token that is already
    revoked, so revoking again goes through too and changes nothing. *)
Theorem X10_revoke_access_issuer_only cap token reason s :
  (sender (tx_ctx s) ≠ original_seller token →
   revoke_access cap token reason s = Err (Assert ERROR_NOT_AUTHORIZED)) ∧
  (sender (tx_ctx s) = original_seller token →
   internal_check_utf8 reason = true →
   ∃ token' s',
     revoke_access cap token reason s = Ok (token', s') ∧
     token' = set_is_active false token ∧
     (∀ now, check_access token' now = false) ∧
     ∃ s'', revoke_access cap token' reason s = Ok (token', s'')).
Proof.
  split; [apply revoke_access_not_authorized |].
  intros Hs Hu. eexists _, _.
  split; [now apply revoke_access_succeeds |].
  split; [reflexivity |]. split; [reflexivity |].
  eexists. now rewrite revoke_access_succeeds.
Qed.

Lemma X10_revoke_access_issuer_only_witness :
  let token := granted marketplace.ACCESS_TYPE_LIMITED 30 in
  ∃ token' s',
    revoke_access admin token "refund" (begin_tx issuer_ctx) = Ok (token', s') ∧
    token' = set_is_active false token ∧
    (∀ now, check_access token' now = false) ∧
    ∃ s'', revoke_access admin token' "refund" (begin_tx issuer_ctx)
           = Ok (token', s'').
Proof.
  apply (proj2 (X10_revoke_access_issuer_only admin
                  (granted marketplace.ACCESS_TYPE_LIMITED 30) "refund"
                  (begin_tx issuer_ctx))); reflexivity.
Defined.

(** X11: the right to revoke stays with the original seller through any
    transfers: after whatever calls, a revocation sent by the original
    seller goes through and ends the access for good, while one sent by
    anybody else, the current holder included, aborts with
    [ERROR_NOT_AUTHORIZED]. *)
Theorem X11_issuer_can_revoke_after_transfers cs st ctx cap reason :
  internal_check_utf8 reason = true →
  let later := run cs st in
  (sender ctx = original_seller (snd st) →
   ∃ token',
     run_call (Revoke ctx cap reason) later = Ok (fst later, token') ∧
     ∀ cs' now,
       check_access (snd (run cs' (fst later, token'))) now = false) ∧
  (sender ctx ≠ original_seller (snd st) →
   run_call (Revoke ctx cap reason) later
     = Err (Assert ERROR_NOT_AUTHORIZED)).
Proof.
  intros Hu later. subst later.
  assert (Hsame : original_seller (snd (run cs st))
                  = original_seller (snd st)).
  { pose proof (run_token_frame cs st) as H.
    now apply (f_equal original_seller) in H. }
  destruct (run cs st) as [registry token]. simpl in *. split.
  - intros Hs. eexists. split.
    + rewrite revoke_access_succeeds;
        [reflexivity | simpl; congruence | exact Hu].
    + intros cs' now. apply not_true_iff_false. rewrite run_check_access.
      simpl. intros [? _]. discriminate.
  - intros Hne. rewrite revoke_access_not_authorized by (simpl; congruence).
    reflexivity.
Qed.

Lemma X11_issuer_can_revoke_after_transfers_witness :
  let st := (indexed, granted marketplace.ACCESS_TYPE_LIMITED 30) in
  let later := run [Transfer holder_ctx 202] st in
  (sender issuer_ctx = original_seller (snd st) →
   ∃ token',
     run_call (Revoke issuer_ctx admin "refund") later
       = Ok (fst later, token') ∧
     ∀ cs' now,
       check_access (snd (run cs' (fst later, token'))) now = false) ∧
  (sender issuer_ctx ≠ original_seller (snd st) →
   run_call (Revoke issuer_ctx admin "refund") later
     = Err (Assert ERROR_NOT_AUTHORIZED)).
Proof.
  apply (X11_issuer_can_revoke_after_transfers [Transfer holder_ctx 202]
           (indexed, granted marketplace.ACCESS_TYPE_LIMITED 30)
           issuer_ctx admin "refund").
  reflexivity.
Defined.

(** X12: nothing renews or edits a credential: over any calls its id,
    twin id, access type, grant time, expiry, encrypted key, source listing
    and original seller stay as minted. *)
Theorem X12_token_terms_are_immutable cs st :
  let before := snd st in
  let after := snd (run cs st) in
  id after = id before ∧
  twin_id after = twin_id before ∧
  access_type after = access_type before ∧
  granted_at after = granted_at before ∧
  expires_at after = expires_at before ∧
  encrypted_key after = encrypted_key before ∧
  purchase_listing_id after = purchase_listing_id before ∧
  original_seller after = original_seller before.
Proof.
  intros before after. subst before after.
  pose proof (run_token_frame cs st) as H.
  repeat split;
    [ apply (f_equal id) in H | apply (f_equal twin_id) in H
    | apply (f_equal access_type) in H | apply (f_equal granted_at) in H
    | apply (f_equal expires_at) in H | apply (f_equal encrypted_key) in H
    | apply (f_equal purchase_listing_id) in H
    | apply (f_equal original_seller) in H ]; exact H.
Qed.

(** X13: a credential that [check_access] has rejected is never accepted
    again: not at a later clock reading, and not after any further calls
    on it. *)
Theorem X13_rejected_access_stays_rejected cs st earlier later :
  timestamp_ms earlier ≤ timestamp_ms later →
  check_access (snd st) earlier = false →
  check_access (snd (run cs st)) later = false.
Proof.
  intros Hle Hrej. apply not_true_iff_false. intros Hok.
  apply run_check_access in Hok as (Hact & _ & Hlt).
  apply not_true_iff_false in Hrej. apply Hrej.
  apply check_access_true. split; [exact Hact |].
  unfold seconds in *.
  pose proof (Z.div_le_mono _ _ 1000 ltac:(lia) Hle). lia.
Qed.

Lemma X13_rejected_access_stays_rejected_witness :
  check_access
    (snd (run [Transfer holder_ctx 202]
            (indexed, granted marketplace.ACCESS_TYPE_LIMITED 30)))
    (at_seconds (1000 + 31 * 86400)) = false.
Proof.
  apply (X13_rejected_access_stays_rejected [Transfer holder_ctx 202]
           (indexed, granted marketplace.ACCESS_TYPE_LIMITED 30)
           (at_seconds (1000 + 30 * 86400)) (at_seconds (1000 + 31 * 86400)));
    ground.
Defined.

(** X14: a [mint_and_transfer_access] that goes through, for a duration
    and a clock that are not negative, sends the holder an active token
    whose grant time is the clock's second and whose expiry is not before
    the grant and within u64; the token's id is appended to the holder's
    vector in the index, nobody else's vector changes, and the counter of
    grants goes up by one.  The access type is stored as given. *)
Theorem X14_mint_and_transfer_grants_one_token registry twin holder a d key
    lid issuer clock s registry' s' :
  0 ≤ d →
  0 ≤ timestamp_ms clock →
  mint_and_transfer_access registry twin holder a d key lid issuer clock s
    = Ok (registry', s') →
  ∃ token,
    last (tx_effects s') = Some (public_transfer token holder) ∧
    owner token = holder ∧
    original_seller token = issuer ∧
    access_type token = a ∧
    purchase_listing_id token = lid ∧
    is_active token = true ∧
    granted_at token = seconds clock ∧
    0 ≤ granted_at token ≤ expires_at token ∧
    expires_at token ≤ MAX_U64 ∧
    active_accesses registry' !! holder
      = Some (default [] (active_accesses registry !! holder) ++ [id token]) ∧
    (∀ k, k ≠ holder →
          active_accesses registry' !! k = active_accesses registry !! k) ∧
    total_granted registry' = total_granted registry + 1.
Proof.
  intros Hd Hclock H. unfold mint_and_transfer_access in H.
  apply bind_Ok in H as ([r token] & s1 & Hmint & H). tx_inv H.
  apply mint_access_token_Ok in Hmint as (Htok & Hmax & Hidx & Hcnt).
  exists token. split; [apply last_snoc |].
  assert (0 ≤ seconds clock) by (unfold seconds; apply Z.div_pos; lia).
  rewrite Hidx, Hcnt, Htok. simpl. unfold SECONDS_PER_DAY in *.
  repeat split; try reflexivity; try lia.
  - apply lookup_insert_eq.
  - intros k Hk. now apply lookup_insert_ne.
Qed.

Lemma X14_mint_and_transfer_grants_one_token_witness :
  ∃ token,
    last (tx_effects
            {| tx_ctx := {| sender := 200; tx_hash := 5; epoch := 1;
                            ids_created := 1 |};
               tx_effects :=
                 [AccessGranted (5, 0) "twin-1" 201
                    marketplace.ACCESS_TYPE_LIMITED 2593000 1000;
                  public_transfer
                    (granted marketplace.ACCESS_TYPE_LIMITED 30) 201] |})
      = Some (public_transfer token 201) ∧
    owner token = 201 ∧
    original_seller token = 200 ∧
    access_type token = marketplace.ACCESS_TYPE_LIMITED ∧
    purchase_listing_id token = (2, 0) ∧
    is_active token = true ∧
    granted_at token = seconds (at_seconds 1000) ∧
    0 ≤ granted_at token ≤ expires_at token ∧
    expires_at token ≤ MAX_U64 ∧
    active_accesses indexed !! 201
      = Some (default [] (active_accesses published !! 201) ++ [id token]) ∧
    (∀ k, k ≠ 201 →
          active_accesses indexed !! k = active_accesses published !! k) ∧
    total_granted indexed = total_granted published + 1.
Proof.
  apply (X14_mint_and_transfer_grants_one_token published "twin-1" 201
           marketplace.ACCESS_TYPE_LIMITED 30 "k3y" (2, 0) 200
           (at_seconds 1000) (begin_tx mint_ctx) indexed
           {| tx_ctx := {| sender := 200; tx_hash := 5; epoch := 1;
                           ids_created := 1 |};
              tx_effects :=
                [AccessGranted (5, 0) "twin-1" 201
                   marketplace.ACCESS_TYPE_LIMITED 2593000 1000;
                 public_transfer
                   (granted marketplace.ACCESS_TYPE_LIMITED 30) 201] |});
    [ground | ground | vm_compute; reflexivity].
Defined.

(** X15: the expiry is computed in u64, so a duration whose expiry would
    leave the u64 range cannot be granted: [mint_access_token] and
    [mint_and_transfer_access] abort with the arithmetic error, before
    anything is indexed. *)
Theorem X15_mint_aborts_when_expiry_overflows registry twin holder a d key lid
    issuer clock s :
  MAX_U64 < seconds clock + d * SECONDS_PER_DAY →
  mint_access_token registry twin holder a d key lid issuer clock s
    = Err ARITHMETIC_ERROR ∧
  mint_and_transfer_access registry twin holder a d key lid issuer clock s
    = Err ARITHMETIC_ERROR.
Proof.
  intros Hov.
  assert (Herr : mint_access_token registry twin holder a d key lid issuer
                   clock s = Err ARITHMETIC_ERROR).
  { unfold mint_access_token.
    erewrite bind_eval by reflexivity.
    unfold mul_u64.
    destruct (Z.leb_spec (d * SECONDS_PER_DAY) MAX_U64); [| reflexivity].
    erewrite bind_eval by reflexivity.
    fold (seconds clock). unfold add_u64.
    destruct (Z.leb_spec (seconds clock + d * SECONDS_PER_DAY) MAX_U64);
      [lia | reflexivity]. }
  split; [exact Herr |].
  unfold mint_and_transfer_access. now apply bind_abort.
Qed.

Lemma X15_mint_aborts_when_expiry_overflows_witness :
  mint_access_token published "twin-1" 201 marketplace.ACCESS_TYPE_FULL
    213503982334602 "k3y" (2, 0) 200 (at_seconds 1000) (begin_tx mint_ctx)
    = Err ARITHMETIC_ERROR ∧
  mint_and_transfer_access published "twin-1" 201 marketplace.ACCESS_TYPE_FULL
    213503982334602 "k3y" (2, 0) 200 (at_seconds 1000) (begin_tx mint_ctx)
    = Err ARITHMETIC_ERROR.
Proof.
  apply (X15_mint_aborts_when_expiry_overflows published "twin-1" 201
           marketplace.ACCESS_TYPE_FULL 213503982334602 "k3y" (2, 0) 200
           (at_seconds 1000) (begin_tx mint_ctx)).
  ground.
Defined.

(** The outcome of a transfer, with the index after un-indexing. *)
Lemma transfer_access_result registry token recipient s :
  ∃ t1 s',
    transfer_access registry token recipient s
      = Ok (set_active_accesses
              (<[recipient := default [] (t1 !! recipient) ++ [id token]]> t1)
              registry, s') ∧
    unindexed (id token) (active_accesses registry !! sender (tx_ctx s))
      (t1 !! sender (tx_ctx s)) ∧
    ∀ k, k ≠ sender (tx_ctx s) → t1 !! k = active_accesses registry !! k.
Proof.
  unfold transfer_access.
  erewrite bind_eval by reflexivity. cbv zeta.
  destruct (unindex_eval (active_accesses registry) (sender (tx_ctx s))
              (id token) s) as (t1 & H1 & Hun & Hother).
  erewrite bind_eval by exact H1.
  erewrite bind_eval by apply ensure_entry_eval.
  rewrite push_back_entry.
  erewrite bind_eval by reflexivity.
  eexists t1, _. split; [reflexivity |]. auto.
Qed.

(** X16: minting for a holder and then transferring to somebody else
    leaves the holder's vector in the index as it was before the mint (an
    empty vector if the holder had no entry), with the token's id now at
    the end of the recipient's vector, provided the id is new to the
    holder's vector. *)
Theorem X16_mint_then_transfer_moves_index_entry registry twin holder a d key
    lid issuer clock s registry1 token s1 recipient s2 :
  mint_access_token registry twin holder a d key lid issuer clock s
    = Ok (registry1, token, s1) →
  id token ∉ default [] (active_accesses registry !! holder) →
  sender (tx_ctx s2) = holder →
  recipient ≠ holder →
  ∃ registry2 s2',
    transfer_access registry1 token recipient s2 = Ok (registry2, s2') ∧
    active_accesses registry2 !! holder
      = Some (default [] (active_accesses registry !! holder)) ∧
    active_accesses registry2 !! recipient
      = Some (default [] (active_accesses registry !! recipient)
              ++ [id token]) ∧
    (∀ k, k ≠ holder → k ≠ recipient →
          active_accesses registry2 !! k = active_accesses registry !! k) ∧
    total_granted registry2 = total_granted registry + 1.
Proof.
  intros Hmint Hnew Hs Hne.
  apply mint_access_token_Ok in Hmint as (_ & _ & Hidx & Hcnt).
  destruct (transfer_access_result registry1 token recipient s2)
    as (t1 & s2' & Hok & Hun & Hother).
  rewrite Hs in Hun, Hother.
  eexists _, _. split; [exact Hok |]. simpl.
  set (old := default [] (active_accesses registry !! holder)) in *.
  assert (Hholder : t1 !! holder = Some old).
  { rewrite Hidx, lookup_insert_eq in Hun.
    destruct Hun as (l' & Hl' & [[Hnot _] | (i & Hi & _ & ->)]).
    - exfalso. apply Hnot. apply elem_of_app. right. apply list_elem_of_singleton.
      reflexivity.
    - rewrite Hl'. f_equal.
      assert (i = length old) as ->.
      { pose proof (lookup_lt_Some _ _ _ Hi) as Hlt.
        rewrite length_app in Hlt. simpl in Hlt.
        destruct (decide (i < length old)%nat) as [Hin | ?]; [| lia].
        rewrite lookup_app_l in Hi by exact Hin.
        apply list_elem_of_lookup_2 in Hi. contradiction. }
      rewrite delete_middle. apply app_nil_r. }
  rewrite lookup_insert_ne by exact Hne.
  split; [exact Hholder |].
  rewrite lookup_insert_eq, Hother, Hidx, lookup_insert_ne by congruence.
  split; [reflexivity |]. split; [| exact Hcnt].
  intros k Hk Hr.
  rewrite lookup_insert_ne, Hother, Hidx, lookup_insert_ne by congruence.
  reflexivity.
Qed.

Lemma X16_mint_then_transfer_moves_index_entry_witness :
  let token := granted marketplace.ACCESS_TYPE_LIMITED 30 in
  ∃ registry2 s2',
    transfer_access indexed token 202 (begin_tx holder_ctx)
      = Ok (registry2, s2') ∧
    active_accesses registry2 !! 201
      = Some (default [] (active_accesses published !! 201)) ∧
    active_accesses registry2 !! 202
      = Some (default [] (active_accesses published !! 202) ++ [id token]) ∧
    (∀ k, k ≠ 201 → k ≠ 202 →
          active_accesses registry2 !! k = active_accesses published !! k) ∧
    total_granted registry2 = total_granted published + 1.
Proof.
  apply (X16_mint_then_transfer_moves_index_entry published "twin-1" 201
           marketplace.ACCESS_TYPE_LIMITED 30 "k3y" (2, 0) 200
           (at_seconds 1000) (begin_tx mint_ctx) indexed
           (granted marketplace.ACCESS_TYPE_LIMITED 30)
           {| tx_ctx := {| sender := 200; tx_hash := 5; epoch := 1;
                           ids_created := 1 |};
              tx_effects :=
                [AccessGranted (5, 0) "twin-1" 201
                   marketplace.ACCESS_TYPE_LIMITED 2593000 1000] |}
           202 (begin_tx holder_ctx));
    [vm_compute; reflexivity | vm_compute; apply not_elem_of_nil
    | reflexivity | discriminate].
Defined.

End access_token_extra.

(** ** More on the revenue ledger *)
Module revenue_extra.
Import revenue_distribution pool_tx pool_scenario revenue_proofs.

Lemma get_balance_lookup pool user :
  get_balance pool user = default 0 (balances pool !! user).
Proof.
  unfold get_balance.
  destruct (table_contains (balances pool) user) eqn:Hc; simpl.
  - apply table_contains_true in Hc as [b Hb]. now rewrite Hb.
  - apply table_contains_false in Hc. now rewrite Hc.
Qed.

(** Making the seller's entry when it is missing. *)
Lemma ensure_balance_eval {E} (t : gmap address Z) k (s : TxState E) :
  (if negb (table_contains t k) then lift (table_add t k 0) else mret t) s
  = Ok (<[k := default 0 (t !! k)]> t, s).
Proof.
  destruct (table_contains t k) eqn:Hc; cbn [negb].
  - apply table_contains_true in Hc as [v Hv].
    rewrite Hv. simpl. now rewrite insert_id.
  - apply table_contains_false in Hc.
    unfold table_add. now rewrite Hc.
Qed.

Lemma record_sale_Ok pool seller seller_payment platform_fee s pool' s' :
  record_sale pool seller seller_payment platform_fee s = Ok (pool', s') →
  pool' =
    set_total_platform_fees
      (total_platform_fees pool + coin_value platform_fee)
      (set_balances
         (<[seller := default 0 (balances pool !! seller)
                      + coin_value seller_payment]> (balances pool)) pool) ∧
  default 0 (balances pool !! seller) + coin_value seller_payment ≤ MAX_U64 ∧
  total_platform_fees pool + coin_value platform_fee ≤ MAX_U64 ∧
  tx_effects s' =
    tx_effects s ++
      [SaleRecorded seller (coin_value seller_payment)
         (coin_value platform_fee) (epoch (tx_ctx s))].
Proof.
  intros H. unfold record_sale in H. cbv zeta in H.
  apply bind_Ok in H as (t1 & s1 & H1 & H).
  rewrite ensure_balance_eval in H1. injection H1 as <- <-.
  apply bind_Ok in H as (b & s2 & H2 & H). tx_inv H2.
  unfold table_borrow in Hlift. rewrite lookup_insert_eq in Hlift.
  injection Hlift as <-.
  tx_inv H.
  apply add_u64_Ok in Hlift as [-> Hb].
  apply add_u64_Ok in Hlift0 as [-> Hf]. simpl in *.
  rewrite insert_insert_eq. auto.
Qed.

Lemma record_sale_succeeds pool seller seller_payment platform_fee s :
  default 0 (balances pool !! seller) + coin_value seller_payment ≤ MAX_U64 →
  total_platform_fees pool + coin_value platform_fee ≤ MAX_U64 →
  ∃ r, record_sale pool seller seller_payment platform_fee s = Ok r.
Proof.
  intros Hb Hf. unfold record_sale. cbv zeta.
  erewrite bind_eval by apply ensure_balance_eval.
  unfold table_borrow. rewrite lookup_insert_eq.
  erewrite bind_eval by reflexivity.
  unfold balance_join. rewrite add_u64_eval by exact Hb.
  erewrite bind_eval by reflexivity.
  simpl. rewrite add_u64_eval by exact Hf.
  eexists. reflexivity.
Qed.

(** X17: a [record_sale] that goes through adds the seller's coin to the
    seller's balance (starting an entry at zero if there was none) and the
    fee coin to the platform's fees, and changes nobody else's balance; it
    goes through whenever neither sum leaves the u64 range. *)
Theorem X17_record_sale_credits_seller_and_platform pool seller seller_payment
    platform_fee s :
  (default 0 (balances pool !! seller) + coin_value seller_payment ≤ MAX_U64 →
   total_platform_fees pool + coin_value platform_fee ≤ MAX_U64 →
   ∃ r, record_sale pool seller seller_payment platform_fee s = Ok r) ∧
  (∀ pool' s',
     record_sale pool seller seller_payment platform_fee s = Ok (pool', s') →
     get_balance pool' seller
       = get_balance pool seller + coin_value seller_payment ∧
     get_platform_fees pool'
       = get_platform_fees pool + coin_value platform_fee ∧
     (∀ k, k ≠ seller → get_balance pool' k = get_balance pool k) ∧
     get_platform_recipient pool' = get_platform_recipient pool).
Proof.
  split; [apply record_sale_succeeds |].
  intros pool' s' H. apply record_sale_Ok in H as (-> & _).
  rewrite !get_balance_lookup. simpl. rewrite lookup_insert_eq. simpl.
  repeat split; try reflexivity.
  intros k Hk. rewrite !get_balance_lookup. simpl.
  now rewrite lookup_insert_ne.
Qed.

Lemma X17_record_sale_credits_seller_and_platform_witness :
  get_balance credited 101
    = get_balance published 101
      + coin_value {| coin_id := (3, 1); coin_value := 95 |} ∧
  get_platform_fees credited
    = get_platform_fees published
      + coin_value {| coin_id := (3, 0); coin_value := 5 |} ∧
  (∀ k, k ≠ 101 → get_balance credited k = get_balance published k) ∧
  get_platform_recipient credited = get_platform_recipient published.
Proof.
  apply (proj2 (X17_record_sale_credits_seller_and_platform published 101
                  {| coin_id := (3, 1); coin_value := 95 |}
                  {| coin_id := (3, 0); coin_value := 5 |}
                  (begin_tx seller_ctx))
           credited
           {| tx_ctx := seller_ctx;
              tx_effects := [SaleRecorded 101 95 5 4] |}).
  vm_compute. reflexivity.
Defined.

Lemma withdraw_platform_fees_succeeds pool amount s :
  sender (tx_ctx s) = platform_fee_recipient pool →
  amount ≤ total_platform_fees pool →
  withdraw_platform_fees pool amount s
  = Ok (set_total_platform_fees (total_platform_fees pool - amount) pool,
        {| tx_ctx :=
             {| sender := sender (tx_ctx s); tx_hash := tx_hash (tx_ctx s);
                epoch := epoch (tx_ctx s);
                ids_created := ids_created (tx_ctx s) + 1 |};
           tx_effects :=
             tx_effects s ++
               [PlatformFeesWithdrawn (sender (tx_ctx s)) amount
                  (epoch (tx_ctx s));
                public_transfer
                  {| coin_id := (tx_hash (tx_ctx s), ids_created (tx_ctx s));
                     coin_value := amount |}
                  (sender (tx_ctx s))] |}).
Proof.
  intros Hs Hle. unfold withdraw_platform_fees.
  erewrite bind_eval by reflexivity.
  rewrite Hs, Z.eqb_refl. erewrite bind_eval by reflexivity. cbv zeta.
  destruct (Z.leb_spec amount (total_platform_fees pool)); [| lia].
  erewrite bind_eval by reflexivity.
  unfold balance_split.
  destruct (Z.ltb_spec (total_platform_fees pool) amount); [lia |].
  erewrite bind_eval by reflexivity.
  cbv [mbind Tx_bind object_new tx_epoch effect mret Tx_ret]. simpl.
  rewrite Hs. now rewrite <- app_assoc.
Qed.

Lemma withdraw_platform_fees_Ok pool amount s pool' s' :
  withdraw_platform_fees pool amount s = Ok (pool', s') →
  sender (tx_ctx s) = platform_fee_recipient pool ∧
  amount ≤ total_platform_fees pool.
Proof.
  intros H. unfold withdraw_platform_fees in H.
  apply bind_Ok in H as (a & s0 & H0 & H). tx_inv H0.
  apply bind_Ok in H as (? & s1 & H1 & H). tx_inv H1.
  cbv zeta in H.
  apply bind_Ok in H as (? & s2 & H2 & _). tx_inv H2.
  apply Z.eqb_eq in Hcond. apply Z.leb_le in Hcond0. auto.
Qed.

(** X18: [withdraw_platform_fees] is for the fee recipient only: any other
    sender is turned away, with the code [ERROR_NO_EARNINGS].  The
    recipient can take any amount up to the fees collected, zero included,
    and gets one coin of exactly that amount while the rest stays; asking
    for more aborts with [ERROR_INSUFFICIENT_BALANCE].  The sellers'
    balances are not touched. *)
Theorem X18_withdraw_platform_fees_outcomes pool amount s :
  (sender (tx_ctx s) ≠ platform_fee_recipient pool →
   withdraw_platform_fees pool amount s = Err (Assert ERROR_NO_EARNINGS)) ∧
  (sender (tx_ctx s) = platform_fee_recipient pool →
   total_platform_fees pool < amount →
   withdraw_platform_fees pool amount s
     = Err (Assert ERROR_INSUFFICIENT_BALANCE)) ∧
  (sender (tx_ctx s) = platform_fee_recipient pool →
   amount ≤ total_platform_fees pool →
   ∃ pool' s' id,
     withdraw_platform_fees pool amount s = Ok (pool', s') ∧
     get_platform_fees pool' = get_platform_fees pool - amount ∧
     balances pool' = balances pool ∧
     last (tx_effects s') =
       Some (public_transfer {| coin_id := id; coin_value := amount |}
               (sender (tx_ctx s)))).
Proof.
  split; [| split].
  - intros Hne. unfold withdraw_platform_fees.
    erewrite bind_eval by reflexivity.
    now destruct (Z.eqb_spec (sender (tx_ctx s)) (platform_fee_recipient pool)).
  - intros Hs Hlt. unfold withdraw_platform_fees.
    erewrite bind_eval by reflexivity.
    rewrite Hs, Z.eqb_refl. erewrite bind_eval by reflexivity. cbv zeta.
    now destruct (Z.leb_spec amount (total_platform_fees pool)); [lia |].
  - intros Hs Hle. eexists _, _, _.
    split; [now apply withdraw_platform_fees_succeeds |].
    simpl. repeat split. now rewrite last_app.
Qed.

Lemma X18_withdraw_platform_fees_outcomes_witness :
  ∃ pool' s' id,
    withdraw_platform_fees credited 0
      (begin_tx {| sender := 100; tx_hash := 13; epoch := 4;
                   ids_created := 0 |}) = Ok (pool', s') ∧
    get_platform_fees pool' = get_platform_fees credited - 0 ∧
    balances pool' = balances credited ∧
    last (tx_effects s') =
      Some (public_transfer {| coin_id := id; coin_value := 0 |}
              (sender (tx_ctx (begin_tx (E := Effect)
                         {| sender := 100; tx_hash := 13; epoch := 4;
                            ids_created := 0 |})))).
Proof.
  apply (proj2 (proj2 (X18_withdraw_platform_fees_outcomes credited 0
                         (begin_tx {| sender := 100; tx_hash := 13;
                                      epoch := 4; ids_created := 0 |}))));
    ground.
Defined.

(** The sum of the balances after one entry is written. *)
Lemma sum_balances_insert (m : gmap address Z) k v :
  map_fold (λ _ balance acc, balance + acc) 0 (<[k := v]> m)
  = map_fold (λ _ balance acc, balance + acc) 0 m - default 0 (m !! k) + v.
Proof.
  destruct (m !! k) as [b|] eqn:Hk; simpl.
  - rewrite <- insert_delete_eq.
    rewrite map_fold_insert_L;
      [| intros; lia | apply lookup_delete_eq].
    rewrite (map_fold_delete_L _ _ k b m); [lia | intros; lia | exact Hk].
  - rewrite map_fold_insert_L; [lia | intros; lia | exact Hk].
Qed.

Lemma withdraw_earnings_Ok pool s pool' s' :
  withdraw_earnings pool s = Ok (pool', s') →
  ∃ b, balances pool !! sender (tx_ctx s) = Some b ∧ 0 < b ∧
       pool' = set_balances (<[sender (tx_ctx s) := 0]> (balances pool)) pool ∧
       coins_out (tx_effects s') = coins_out (tx_effects s) + b.
Proof.
  intros H.
  destruct (balances pool !! sender (tx_ctx s)) as [b|] eqn:Hb.
  - destruct (Z.ltb_spec 0 b) as [Hpos | Hle].
    + rewrite (withdraw_earnings_positive _ _ b) in H by done.
      injection H as <- <-. exists b. repeat split; auto. simpl.
      unfold coins_out. rewrite foldr_app. simpl.
      generalize (tx_effects s). intros l.
      induction l as [| e l IH]; simpl; [lia |].
      destruct e; rewrite IH; lia.
    + rewrite (withdraw_earnings_zero _ _ b) in H by done. discriminate.
  - rewrite withdraw_earnings_no_entry in H by done. discriminate.
Qed.

(** One call moves value between the pool and the outside, and nowhere
    else. *)
Lemma run_call_conserves c pool pool' effects :
  run_call c pool = Ok (pool', effects) →
  held pool' + coins_out effects = held pool + coins_in c.
Proof.
  unfold held.
  destruct c as [ctx seller sp pf | ctx | ctx amount]; simpl.
  - destruct (record_sale _ _ _ _ _) as [[p s]|e] eqn:H; [| discriminate].
    intros [= -> <-].
    apply record_sale_Ok in H as (-> & _ & _ & ->). simpl.
    rewrite sum_balances_insert. lia.
  - destruct (withdraw_earnings _ _) as [[p s]|e] eqn:H; [| discriminate].
    intros [= -> <-].
    apply withdraw_earnings_Ok in H as (b & Hb & _ & -> & ->). simpl in *.
    rewrite sum_balances_insert, Hb. simpl. lia.
  - destruct (withdraw_platform_fees _ _ _) as [[p s]|e] eqn:H;
      [| discriminate].
    intros [= -> <-].
    pose proof (withdraw_platform_fees_Ok _ _ _ _ _ H) as [Hs Hle].
    rewrite withdraw_platform_fees_succeeds in H by done.
    injection H as <- <-. simpl. lia.
Qed.

(** X19: the pool creates and destroys no value.  Over any sequence of
    sales recorded and withdrawals, what the pool holds (the sellers'
    balances and the platform's fees) plus the coins it has sent out grows
    by exactly the coins that were handed to [record_sale]; a call that
    aborts moves nothing. *)
Theorem X19_pool_conserves_value cs a :
  held (pool_of (run cs a)) + sent (run cs a) - received (run cs a)
  = held (pool_of a) + sent a - received a.
Proof.
  revert a. induction cs as [| c cs IH]; intros a; [reflexivity |].
  unfold run in *. simpl. rewrite IH. unfold step.
  destruct (run_call c (pool_of a)) as [[pool' effects]|e] eqn:H;
    [| reflexivity].
  apply run_call_conserves in H. simpl. lia.
Qed.

(** X20: what a sale credits can be withdrawn at once.  After a
    [record_sale] for a seller, a [withdraw_earnings] sent by that seller
    pays one coin worth the earlier balance plus the sale, as long as that
    is positive, and leaves the seller's balance at zero and the platform's
    fees as the sale left them. *)
Theorem X20_record_sale_then_withdraw pool seller seller_payment platform_fee s
    pool1 s1 s2 :
  record_sale pool seller seller_payment platform_fee s = Ok (pool1, s1) →
  sender (tx_ctx s2) = seller →
  0 < get_balance pool seller + coin_value seller_payment →
  ∃ pool2 s2' id,
    withdraw_earnings pool1 s2 = Ok (pool2, s2') ∧
    last (tx_effects s2') =
      Some (public_transfer
              {| coin_id := id;
                 coin_value := get_balance pool seller
                               + coin_value seller_payment |} seller) ∧
    get_balance pool2 seller = 0 ∧
    get_platform_fees pool2
      = get_platform_fees pool + coin_value platform_fee.
Proof.
  intros H Hs Hpos. apply record_sale_Ok in H as (-> & _).
  rewrite get_balance_lookup in Hpos.
  eexists _, _, _. split.
  { apply withdraw_earnings_positive; [| exact Hpos].
    simpl. rewrite Hs. apply lookup_insert_eq. }
  simpl. rewrite last_app. simpl.
  rewrite !get_balance_lookup. simpl. rewrite Hs, lookup_insert_eq.
  auto.
Qed.

Lemma X20_record_sale_then_withdraw_witness :
  ∃ pool2 s2' id,
    withdraw_earnings credited (begin_tx seller_ctx) = Ok (pool2, s2') ∧
    last (tx_effects s2') =
      Some (public_transfer
              {| coin_id := id;
                 coin_value :=
                   get_balance published 101
                   + coin_value {| coin_id := (3, 1); coin_value := 95 |} |}
              101) ∧
    get_balance pool2 101 = 0 ∧
    get_platform_fees pool2
      = get_platform_fees published
        + coin_value {| coin_id := (3, 0); coin_value := 5 |}.
Proof.
  apply (X20_record_sale_then_withdraw published 101
           {| coin_id := (3, 1); coin_value := 95 |}
           {| coin_id := (3, 0); coin_value := 5 |}
           (begin_tx seller_ctx) credited
           {| tx_ctx := seller_ctx;
              tx_effects := [SaleRecorded 101 95 5 4] |}
           (begin_tx seller_ctx));
    [vm_compute; reflexivity | reflexivity | ground].
Defined.

End revenue_extra.

(** ** More on the asset registry *)
Module ai_twin_nft_extra.
Import ai_twin_nft nft_tx nft_scenario.

Lemma get_twin_owner_lookup registry twin :
  get_twin_owner registry twin =
  match twins registry !! twin with
  | Some a => Ok a
  | None => Err (Assert ERROR_TWIN_NOT_FOUND)
  end.
Proof.
  unfold get_twin_owner, table_borrow.
  destruct (table_contains (twins registry) twin) eqn:Hc.
  - apply table_contains_true in Hc as [a Ha]. now rewrite Ha.
  - apply table_contains_false in Hc. now rewrite Hc.
Qed.

Lemma mint_ai_twin_Ok registry twin name description blob metadata s
    registry' s' :
  mint_ai_twin registry twin name description blob metadata s
    = Ok (registry', s') →
  twins registry !! twin = None ∧
  registry' =
    {| registry_id := registry_id registry;
       total_minted := total_minted registry + 1;
       twins := <[twin := sender (tx_ctx s)]> (twins registry) |} ∧
  last (tx_effects s') =
    Some (public_transfer
            {| id := (tx_hash (tx_ctx s), ids_created (tx_ctx s));
               twin_id := twin; creator := sender (tx_ctx s); name := name;
               description := description; training_data_blob_id := blob;
               created_at := epoch (tx_ctx s); metadata := metadata |}
            (sender (tx_ctx s))).
Proof.
  intros H. unfold mint_ai_twin in H. tx_inv H.
  apply utf8_Ok in Hlift as [-> _]. apply utf8_Ok in Hlift0 as [-> _].
  apply utf8_Ok in Hlift1 as [-> _]. apply utf8_Ok in Hlift2 as [-> _].
  apply add_u64_Ok in Hlift4 as [-> _].
  apply negb_true_iff, table_contains_false in Hcond.
  unfold table_add in Hlift3. rewrite Hcond in Hlift3.
  injection Hlift3 as <-. simpl.
  split; [exact Hcond |]. split; [reflexivity |]. apply last_snoc.
Qed.

Lemma mint_ai_twin_succeeds registry twin name description blob metadata s :
  internal_check_utf8 twin = true →
  internal_check_utf8 name = true →
  internal_check_utf8 description = true →
  internal_check_utf8 blob = true →
  twins registry !! twin = None →
  total_minted registry + 1 ≤ MAX_U64 →
  ∃ r, mint_ai_twin registry twin name description blob metadata s = Ok r.
Proof.
  intros Ht Hn Hd Hb Hfree Hcnt. unfold mint_ai_twin.
  rewrite (utf8_eval twin) by done. erewrite bind_eval by reflexivity.
  erewrite bind_eval by reflexivity.
  rewrite (proj2 (table_contains_false _ _) Hfree).
  erewrite bind_eval by reflexivity.
  erewrite bind_eval by reflexivity.
  rewrite (utf8_eval name) by done. erewrite bind_eval by reflexivity.
  rewrite (utf8_eval description) by done. erewrite bind_eval by reflexivity.
  rewrite (utf8_eval blob) by done. erewrite bind_eval by reflexivity.
  erewrite bind_eval by reflexivity. cbv zeta.
  unfold table_add. rewrite Hfree. erewrite bind_eval by reflexivity.
  rewrite add_u64_eval by done. erewrite bind_eval by reflexivity.
  erewrite bind_eval by reflexivity.
  eexists. reflexivity.
Qed.

Lemma mint_ai_twin_duplicate registry twin name description blob metadata s :
  internal_check_utf8 twin = true →
  is_Some (twins registry !! twin) →
  mint_ai_twin registry twin name description blob metadata s
    = Err (Assert ERROR_TWIN_ALREADY_EXISTS).
Proof.
  intros Ht Hdup. unfold mint_ai_twin.
  rewrite (utf8_eval twin) by done. erewrite bind_eval by reflexivity.
  erewrite bind_eval by reflexivity.
  now rewrite (proj2 (table_contains_true _ _) Hdup).
Qed.

Lemma burn_twin_eval registry nft s :
  burn_twin registry nft s
  = Ok (set_twins (delete (twin_id nft) (twins registry)) registry,
        {| tx_ctx := tx_ctx s;
           tx_effects :=
             tx_effects s ++
               [AITwinBurned (twin_id nft) (id nft) (sender (tx_ctx s))
                  (epoch (tx_ctx s));
                object_delete (id nft)] |}).
Proof.
  unfold burn_twin.
  erewrite bind_eval by reflexivity. cbv zeta.
  erewrite bind_eval by apply remove_if_contains.
  erewrite bind_eval by reflexivity.
  cbv [mbind Tx_bind effect mret Tx_ret]. simpl.
  now rewrite <- app_assoc.
Qed.

(** X21: twin ids are unique in the registry.  [mint_ai_twin] for a
    well-formed twin id that is already registered aborts with
    [ERROR_TWIN_ALREADY_EXISTS]; a mint that goes through was for an id not
    registered before, records the sender as its owner, counts one more
    mint, leaves the other twins alone and sends the sender an NFT that
    carries the twin id and names the sender as creator. *)
Theorem X21_mint_registers_unique_twin registry twin name description blob
    metadata s :
  (internal_check_utf8 twin = true →
   is_Some (twins registry !! twin) →
   mint_ai_twin registry twin name description blob metadata s
     = Err (Assert ERROR_TWIN_ALREADY_EXISTS)) ∧
  (∀ registry' s',
     mint_ai_twin registry twin name description blob metadata s
       = Ok (registry', s') →
     twin_exists registry twin = false ∧
     twin_exists registry' twin = true ∧
     get_twin_owner registry' twin = Ok (sender (tx_ctx s)) ∧
     get_total_minted registry' = get_total_minted registry + 1 ∧
     (∀ k, k ≠ twin → twins registry' !! k = twins registry !! k) ∧
     ∃ nft,
       last (tx_effects s') = Some (public_transfer nft (sender (tx_ctx s))) ∧
       get_twin_id nft = twin ∧
       creator nft = sender (tx_ctx s)).
Proof.
  split; [apply mint_ai_twin_duplicate |].
  intros registry' s' H. apply mint_ai_twin_Ok in H as (Hfree & -> & Hlast).
  split; [now apply table_contains_false |].
  split; [apply table_contains_true; simpl; rewrite lookup_insert_eq; eauto |].
  rewrite get_twin_owner_lookup. simpl. rewrite lookup_insert_eq.
  split; [reflexivity |]. split; [reflexivity |].
  split; [intros k Hk; now apply lookup_insert_ne |].
  eexists. split; [exact Hlast |]. split; reflexivity.
Qed.

Lemma X21_mint_registers_unique_twin_witness :
  mint_ai_twin minted "twin-1" "Ada" "a twin" "blob-1" ""
    (begin_tx other_ctx) = Err (Assert ERROR_TWIN_ALREADY_EXISTS).
Proof.
  apply (proj1 (X21_mint_registers_unique_twin minted "twin-1" "Ada" "a twin"
                  "blob-1" "" (begin_tx other_ctx)));
    [reflexivity | vm_compute; eauto].
Defined.

(** X22: [burn_twin] never aborts and checks nothing: it takes the NFT's
    twin id out of the registry if it is there, after which the twin does
    not exist for the registry and asking for its owner aborts with
    [ERROR_TWIN_NOT_FOUND]; the other twins and the counter of mints stay
    as they were. *)
Theorem X22_burn_removes_twin registry nft s :
  ∃ registry' s',
    burn_twin registry nft s = Ok (registry', s') ∧
    twin_exists registry' (twin_id nft) = false ∧
    get_twin_owner registry' (twin_id nft)
      = Err (Assert ERROR_TWIN_NOT_FOUND) ∧
    (∀ k, k ≠ twin_id nft → twins registry' !! k = twins registry !! k) ∧
    get_total_minted registry' = get_total_minted registry ∧
    last (tx_effects s') = Some (object_delete (id nft)).
Proof.
  eexists _, _. split; [apply burn_twin_eval |].
  rewrite get_twin_owner_lookup. simpl. rewrite lookup_delete_eq.
  split; [apply table_contains_false, lookup_delete_eq |].
  split; [reflexivity |].
  split; [intros k Hk; now apply lookup_delete_ne |].
  split; [reflexivity |]. now rewrite last_app.
Qed.

Lemma X22_burn_removes_twin_witness :
  ∃ registry' s',
    burn_twin minted scenario.twin_nft (begin_tx other_ctx)
      = Ok (registry', s') ∧
    twin_exists registry' (twin_id scenario.twin_nft) = false ∧
    get_twin_owner registry' (twin_id scenario.twin_nft)
      = Err (Assert ERROR_TWIN_NOT_FOUND) ∧
    (∀ k, k ≠ twin_id scenario.twin_nft →
          twins registry' !! k = twins minted !! k) ∧
    get_total_minted registry' = get_total_minted minted ∧
    last (tx_effects s') = Some (object_delete (id scenario.twin_nft)).
Proof.
  apply (X22_burn_removes_twin minted scenario.twin_nft (begin_tx other_ctx)).
Defined.

(** X23: burning gives the twin id back.  After a mint, minting the same
    id again aborts; once the minted NFT is burned the registry's table is
    what it was before the mint, so the id can be minted again, while the
    counter of mints keeps counting. *)
Theorem X23_mint_then_burn_frees_twin_id registry twin name description blob
    metadata s registry1 s1 nft s2 :
  mint_ai_twin registry twin name description blob metadata s
    = Ok (registry1, s1) →
  last (tx_effects s1) = Some (public_transfer nft (sender (tx_ctx s))) →
  total_minted registry + 2 ≤ MAX_U64 →
  (∀ s3, mint_ai_twin registry1 twin name description blob metadata s3
         = Err (Assert ERROR_TWIN_ALREADY_EXISTS)) ∧
  ∃ registry2 s2',
    burn_twin registry1 nft s2 = Ok (registry2, s2') ∧
    twins registry2 = twins registry ∧
    total_minted registry2 = total_minted registry + 1 ∧
    ∀ s3, ∃ registry3 s3',
      mint_ai_twin registry2 twin name description blob metadata s3
        = Ok (registry3, s3') ∧
      total_minted registry3 = total_minted registry + 2.
Proof.
  intros Hmint Hnft Hcnt.
  assert (Hutf : internal_check_utf8 twin = true ∧
                 internal_check_utf8 name = true ∧
                 internal_check_utf8 description = true ∧
                 internal_check_utf8 blob = true).
  { pose proof Hmint as H. unfold mint_ai_twin in H. tx_inv H.
    apply utf8_Ok in Hlift as [_ ?]. apply utf8_Ok in Hlift0 as [_ ?].
    apply utf8_Ok in Hlift1 as [_ ?]. apply utf8_Ok in Hlift2 as [_ ?].
    auto. }
  destruct Hutf as (Ht & Hn & Hd & Hb).
  apply mint_ai_twin_Ok in Hmint as (Hfree & -> & Hlast).
  rewrite Hlast in Hnft. injection Hnft as <-.
  split.
  { intros s3. apply mint_ai_twin_duplicate; [exact Ht |].
    simpl. rewrite lookup_insert_eq. eauto. }
  eexists _, _. split; [apply burn_twin_eval |]. simpl.
  split; [now apply delete_insert_id |]. split; [reflexivity |].
  intros s3.
  destruct (mint_ai_twin_succeeds
              (set_twins (delete twin (<[twin := sender (tx_ctx s)]> (twins registry)))
                 {| registry_id := registry_id registry;
                    total_minted := total_minted registry + 1;
                    twins := <[twin := sender (tx_ctx s)]> (twins registry) |})
              twin name description blob metadata s3)
    as ([r3 s3'] & Hok); auto.
  { simpl. apply lookup_delete_eq. }
  { simpl. lia. }
  exists r3, s3'. split; [exact Hok |].
  apply mint_ai_twin_Ok in Hok as (_ & -> & _). simpl. lia.
Qed.

Lemma X23_mint_then_burn_frees_twin_id_witness :
  (∀ s3, mint_ai_twin minted "twin-1" "Ada" "a twin" "blob-1" "" s3
         = Err (Assert ERROR_TWIN_ALREADY_EXISTS)) ∧
  ∃ registry2 s2',
    burn_twin minted
      {| id := (20, 0); twin_id := "twin-1"; creator := 101; name := "Ada";
         description := "a twin"; training_data_blob_id := "blob-1";
         created_at := 5; metadata := "" |}
      (begin_tx other_ctx) = Ok (registry2, s2') ∧
    twins registry2 = twins empty ∧
    total_minted registry2 = total_minted empty + 1 ∧
    ∀ s3, ∃ registry3 s3',
      mint_ai_twin registry2 "twin-1" "Ada" "a twin" "blob-1" "" s3
        = Ok (registry3, s3') ∧
      total_minted registry3 = total_minted empty + 2.
Proof.
  apply (X23_mint_then_burn_frees_twin_id empty "twin-1" "Ada" "a twin"
           "blob-1" ""
           (begin_tx {| sender := 101; tx_hash := 20; epoch := 5;
                        ids_created := 0 |})
           minted
           {| tx_ctx := {| sender := 101; tx_hash := 20; epoch := 5;
                           ids_created := 1 |};
              tx_effects :=
                [AITwinMinted "twin-1" (20, 0) 101 "Ada" 5;
                 public_transfer
                   {| id := (20, 0); twin_id := "twin-1"; creator := 101;
                      name := "Ada"; description := "a twin";
                      training_data_blob_id := "blob-1"; created_at := 5;
                      metadata := "" |} 101] |}
           {| id := (20, 0); twin_id := "twin-1"; creator := 101;
              name := "Ada"; description := "a twin";
              training_data_blob_id := "blob-1"; created_at := 5;
              metadata := "" |}
           (begin_tx other_ctx));
    [vm_compute; reflexivity | reflexivity | ground].
Defined.

Lemma transfer_twin_eval registry nft recipient s :
  ∃ s',
    transfer_twin registry nft recipient s
    = Ok (set_twins (<[twin_id nft := recipient]> (twins registry)) registry,
          s').
Proof.
  unfold transfer_twin.
  erewrite bind_eval by reflexivity. cbv zeta.
  erewrite bind_eval by apply remove_if_contains.
  unfold table_add. rewrite lookup_delete_eq, insert_delete_eq.
  erewrite bind_eval by reflexivity.
  eexists. reflexivity.
Qed.

(** X24: the counter of mints bounds the number of registered twins.  Over
    any sequence of mints, transfers and burns in which every transfer is
    given an NFT whose twin id is registered at that point, the table never
    has more entries than [total_minted] counts, and [total_minted] never
    goes down. *)
Theorem X24_twins_table_within_mint_counter cs registry :
  transfers_registered cs registry →
  Z.of_nat (size (twins registry)) ≤ total_minted registry →
  Z.of_nat (size (twins (run cs registry))) ≤ total_minted (run cs registry) ∧
  total_minted registry ≤ total_minted (run cs registry).
Proof.
  revert registry. induction cs as [| c cs IH]; intros registry Hreg Hinv;
    [simpl; lia |].
  destruct Hreg as [Hc Hreg]. unfold run in *. simpl.
  assert (Hstep : Z.of_nat (size (twins (step registry c)))
                    ≤ total_minted (step registry c) ∧
                  total_minted registry ≤ total_minted (step registry c)).
  { unfold step.
    destruct c as [ctx twin name description blob metadata | ctx nft recipient
                  | ctx nft]; simpl.
    - destruct (mint_ai_twin _ _ _ _ _ _ _) as [[r s]|e] eqn:H; simpl;
        [| lia].
      apply mint_ai_twin_Ok in H as (Hfree & -> & _). simpl.
      rewrite map_size_insert_None by exact Hfree. lia.
    - destruct (transfer_twin_eval registry nft recipient (begin_tx ctx))
        as (s' & ->). simpl.
      apply table_contains_true in Hc.
      rewrite map_size_insert_Some by exact Hc. lia.
    - rewrite burn_twin_eval. simpl.
      rewrite map_size_delete.
      destruct (twins registry !! twin_id nft); simpl; lia. }
  destruct Hstep as [Hsize Hmono].
  destruct (IH (step registry c) Hreg Hsize). lia.
Qed.

Lemma X24_twins_table_within_mint_counter_witness :
  let cs :=
    [TransferTwin other_ctx scenario.twin_nft 103;
     BurnTwin other_ctx scenario.twin_nft;
     MintTwin other_ctx "twin-2" "Bob" "another twin" "blob-2" ""] in
  Z.of_nat (size (twins (run cs minted))) ≤ total_minted (run cs minted) ∧
  total_minted minted ≤ total_minted (run cs minted).
Proof.
  apply (X24_twins_table_within_mint_counter
           [TransferTwin other_ctx scenario.twin_nft 103;
            BurnTwin other_ctx scenario.twin_nft;
            MintTwin other_ctx "twin-2" "Bob" "another twin" "blob-2" ""]
           minted); [| ground].
  repeat split.
Defined.

End ai_twin_nft_extra.

(** ** Settlement across the ledgers *)
Module settlement_extra.
Import marketplace.

(** X25: the coins that [purchase_access] returns are the ones
    [record_sale] takes.  When a purchase goes through and its fee coin
    and seller coin are recorded for the listing's seller, the seller's
    balance in the pool grows by [price - fee], the platform's fees grow by
    [fee], and the two increments add up to the price of the listing. *)
Theorem X25_purchase_then_record_sale_credits_price registry listing nft
    payment s registry' listing' nft' fee_coin seller_coin change s' pool t
    pool' t' :
  purchase_access registry listing nft payment s
    = Ok (registry', listing', (nft', fee_coin, seller_coin, change), s') →
  revenue_distribution.record_sale pool (seller listing) seller_coin fee_coin t
    = Ok (pool', t') →
  let fee := price listing * platform_fee_percent registry / 100 in
  let earned :=
    revenue_distribution.get_balance pool' (seller listing)
    - revenue_distribution.get_balance pool (seller listing) in
  let collected :=
    revenue_distribution.get_platform_fees pool'
    - revenue_distribution.get_platform_fees pool in
  earned = price listing - fee ∧
  collected = fee ∧
  earned + collected = price listing ∧
  total_volume registry' = total_volume registry + price listing.
Proof.
  intros Hp Hr fee earned collected.
  apply marketplace_proofs.purchase_access_Ok in Hp. cbv zeta in Hp.
  destruct Hp as (_ & _ & _ & _ & Hf & Hsp & _ & _ & _ & -> & _).
  apply revenue_extra.record_sale_Ok in Hr as (-> & _).
  subst earned collected fee.
  rewrite !revenue_extra.get_balance_lookup. simpl.
  rewrite lookup_insert_eq. simpl. rewrite Hf, Hsp.
  unfold revenue_distribution.get_platform_fees. simpl. lia.
Qed.

Lemma X25_purchase_then_record_sale_credits_price_witness :
  let fee := price scenario.offer * platform_fee_percent scenario.listed / 100 in
  let earned :=
    revenue_distribution.get_balance pool_scenario.credited
      (seller scenario.offer)
    - revenue_distribution.get_balance pool_scenario.published
        (seller scenario.offer) in
  let collected :=
    revenue_distribution.get_platform_fees pool_scenario.credited
    - revenue_distribution.get_platform_fees pool_scenario.published in
  earned = price scenario.offer - fee ∧
  collected = fee ∧
  earned + collected = price scenario.offer ∧
  total_volume (set_total_volume 100 (set_total_sales 1 scenario.listed))
    = total_volume scenario.listed + price scenario.offer.
Proof.
  apply (X25_purchase_then_record_sale_credits_price scenario.listed
           scenario.offer scenario.twin_nft (scenario.coin 120)
           (begin_tx scenario.buyer_ctx)
           (set_total_volume 100 (set_total_sales 1 scenario.listed))
           (set_is_active false scenario.offer) scenario.twin_nft
           {| coin_id := (3, 0); coin_value := 5 |}
           {| coin_id := (3, 1); coin_value := 95 |}
           {| coin_id := (9, 0); coin_value := 20 |}
           {| tx_ctx := {| sender := 102; tx_hash := 3; epoch := 1;
                           ids_created := 2 |};
              tx_effects :=
                [PurchaseCompleted (2, 0) "twin-1" 102 101 100 5 95 1] |}
           pool_scenario.published
           (begin_tx pool_scenario.seller_ctx)
           pool_scenario.credited
           {| tx_ctx := pool_scenario.seller_ctx;
              tx_effects :=
                [revenue_distribution.SaleRecorded 101 95 5 4] |});
    vm_compute; reflexivity.
Defined.

End settlement_extra.
